(** * Baby Language Translator: recorder, classifier adapter, recording store

    A shallow embedding of the three TypeScript components of the
    application and the properties of its specification:

    - [src/components/AudioRecorder.tsx] (and its earlier variant, which
      differs in where the recorder flags are updated): [startRecording],
      the [onstop] handler and [analyzeAudio];
    - [src/App.tsx]: [handleRecordingComplete] and [handleSaveRecording];
    - the history component ([RecordingHistory]): [loadRecordings] and
      [deleteRecording].

    Platform and SDK calls (microphone, file reader, text generation,
    database, clock, random numbers) are inputs of the embedded functions:
    each function receives what the call answered and returns the new
    component state together with the trace of what it did. *)

From Stdlib Require Import ZArith List String Ascii Bool Lia.
From Stdlib.Strings Require Byte.
From Stdlib Require OrderedTypeEx.
From stdpp Require Import gmap strings pretty.
Import ListNotations.

Local Open Scope string_scope.
Local Open Scope list_scope.

Set Warnings "-register-all".

(** ** JavaScript values read from JSON text *)

Module Js.

(** A number is kept as the exact decimal [mantissa * 10 ^ exponent] its
    literal denotes; the platform rounds that decimal to the nearest
    double. *)
Record number := Num { mantissa : Z; exponent : Z }.

Inductive json :=
| JNull
| JBool (b : bool)
| JNum (n : number)
| JStr (s : string)
| JArr (items : list json)
| JObj (members : list (string * json)).

(** [undefined] is [None]; every other value of interest is a JSON value. *)
Definition value := option json.

Definition undefined : value := None.

Definition of_Z (z : Z) : json := JNum (Num z 0).

(** [num_is_zero]: the double the decimal is rounded to is 0 (so the
    number is falsy). That is the case when the decimal is 0 or so small
    that it is no nearer to the least positive double, [2 ^ -1074], than
    to 0: when its absolute value is at most [2 ^ -1075]. *)
Definition num_is_zero (n : number) : bool :=
  (mantissa n =? 0)%Z
  || ((exponent n <? 0)%Z
      && (Z.abs (mantissa n) * 2 ^ 1075 <=? 10 ^ (- exponent n))%Z).

(** The integer a number denotes, when it denotes one. *)
Definition num_to_Z (n : number) : option Z :=
  if (0 <=? exponent n)%Z then Some (mantissa n * 10 ^ exponent n)%Z
  else
    let d := (10 ^ (- exponent n))%Z in
    if (mantissa n mod d =? 0)%Z then Some (mantissa n / d)%Z else None.

(** Truthiness, as [!x] and [x ? a : b] test it. *)
Definition truthy_json (v : json) : bool :=
  match v with
  | JNull => false
  | JBool b => b
  | JNum n => negb (num_is_zero n)
  | JStr s => negb (String.eqb s EmptyString)
  | JArr _ => true
  | JObj _ => true
  end.

Definition truthy (v : value) : bool :=
  match v with
  | None => false
  | Some j => truthy_json j
  end.

Definition truthy_string (s : string) : bool := negb (String.eqb s EmptyString).

(** Own property of an object built by [JSON.parse]: a repeated key keeps
    its last value. *)
Fixpoint lookup_member (k : string) (ms : list (string * json)) : value :=
  match ms with
  | [] => None
  | (k', v) :: rest =>
      match lookup_member k rest with
      | Some w => Some w
      | None => if String.eqb k k' then Some v else None
      end
  end.

(** [v.k] for the property names the application reads ([type],
    [urgency], [confidence], [action], [explanation]): none of them is on
    a prototype, so only objects answer. *)
Definition get (v : json) (k : string) : value :=
  match v with
  | JObj ms => lookup_member k ms
  | _ => None
  end.

End Js.

(** ** [JSON.parse] *)

Module Json.
Import Js.

Definition code (c : ascii) : N := N_of_ascii c.

Definition is_ws (c : ascii) : bool :=
  let n := code c in
  ((n =? 32) || (n =? 9) || (n =? 10) || (n =? 13))%N.

Definition is_digit (c : ascii) : bool :=
  let n := code c in ((48 <=? n) && (n <=? 57))%N.

Definition digit_val (c : ascii) : Z := Z.of_N (code c) - 48.

Definition hex_val (c : ascii) : option N :=
  let n := code c in
  if ((48 <=? n) && (n <=? 57))%N then Some (n - 48)%N
  else if ((65 <=? n) && (n <=? 70))%N then Some (n - 55)%N
  else if ((97 <=? n) && (n <=? 102))%N then Some (n - 87)%N
  else None.

Fixpoint skip_ws (s : list ascii) : list ascii :=
  match s with
  | c :: r => if is_ws c then skip_ws r else s
  | [] => []
  end.

(** A run of digits: its value on top of [acc], how many there were, and
    the rest of the text. *)
Fixpoint digits (acc : Z) (count : Z) (s : list ascii) : Z * Z * list ascii :=
  match s with
  | c :: r =>
      if is_digit c then digits (10 * acc + digit_val c)%Z (count + 1)%Z r
      else (acc, count, s)
  | [] => (acc, count, [])
  end.

(** Integer part: a single [0], or a run of digits that starts with 1-9. *)
Definition parse_int (s : list ascii) : option (Z * list ascii) :=
  match s with
  | c :: r =>
      if (code c =? 48)%N then Some (0%Z, r)
      else if is_digit c then
        let '(v, _, r') := digits 0 0 s in Some (v, r')
      else None
  | [] => None
  end.

(** Optional fraction: value of the integer and fraction digits together,
    and how many fraction digits were read. *)
Definition parse_frac (int : Z) (s : list ascii) : option (Z * Z * list ascii) :=
  match s with
  | "."%char :: r =>
      let '(v, n, r') := digits int 0 r in
      if (n =? 0)%Z then None else Some (v, n, r')
  | _ => Some (int, 0%Z, s)
  end.

Definition parse_exp (s : list ascii) : option (Z * list ascii) :=
  match s with
  | c :: r =>
      if ((code c =? 101) || (code c =? 69))%N then
        let '(neg, r1) :=
          match r with
          | "-"%char :: r1 => (true, r1)
          | "+"%char :: r1 => (false, r1)
          | _ => (false, r)
          end in
        let '(v, n, r2) := digits 0 0 r1 in
        if (n =? 0)%Z then None
        else Some (if neg then (- v)%Z else v, r2)
      else Some (0%Z, s)
  | [] => Some (0%Z, [])
  end.

Definition parse_number (s : list ascii) : option (json * list ascii) :=
  let '(neg, s1) :=
    match s with
    | "-"%char :: r => (true, r)
    | _ => (false, s)
    end in
  match parse_int s1 with
  | None => None
  | Some (i, s2) =>
      match parse_frac i s2 with
      | None => None
      | Some (m, nfrac, s3) =>
          match parse_exp s3 with
          | None => None
          | Some (e, s4) =>
              Some (JNum (Num (if neg then (- m)%Z else m) (e - nfrac)), s4)
          end
      end
  end.

(** The bytes (UTF-8) of the code unit a [\uXXXX] escape names. *)
Definition utf8 (n : N) : list ascii :=
  if (n <? 128)%N then [ascii_of_N n]
  else if (n <? 2048)%N then
    [ascii_of_N (192 + n / 64); ascii_of_N (128 + n mod 64)]
  else
    [ascii_of_N (224 + n / 4096); ascii_of_N (128 + (n / 64) mod 64);
     ascii_of_N (128 + n mod 64)].

Definition parse_hex4 (s : list ascii) : option (N * list ascii) :=
  match s with
  | a :: b :: c :: d :: r =>
      match hex_val a, hex_val b, hex_val c, hex_val d with
      | Some x, Some y, Some z, Some w =>
          Some (((x * 16 + y) * 16 + z) * 16 + w, r)%N
      | _, _, _, _ => None
      end
  | _ => None
  end.

(** The characters of a string literal after its opening quote, up to and
    including the closing one. [fuel] bounds the length of the text. *)
Fixpoint parse_chars (fuel : nat) (acc : list ascii) (s : list ascii)
  : option (string * list ascii) :=
  match fuel with
  | O => None
  | S f =>
      match s with
      | [] => None
      | c :: r =>
          if (code c =? 34)%N then
            Some (string_of_list_ascii (rev acc), r)
          else if (code c =? 92)%N then
            match r with
            | e :: r' =>
                let n := code e in
                if (n =? 34)%N then parse_chars f (e :: acc) r'
                else if (n =? 92)%N then parse_chars f (e :: acc) r'
                else if (n =? 47)%N then parse_chars f (e :: acc) r'
                else if (n =? 98)%N then parse_chars f (ascii_of_N 8 :: acc) r'
                else if (n =? 102)%N then parse_chars f (ascii_of_N 12 :: acc) r'
                else if (n =? 110)%N then parse_chars f (ascii_of_N 10 :: acc) r'
                else if (n =? 114)%N then parse_chars f (ascii_of_N 13 :: acc) r'
                else if (n =? 116)%N then parse_chars f (ascii_of_N 9 :: acc) r'
                else if (n =? 117)%N then
                  match parse_hex4 r' with
                  | Some (u, r'') => parse_chars f (rev (utf8 u) ++ acc) r''
                  | None => None
                  end
                else None
            | [] => None
            end
          else if (code c <? 32)%N then None
          else parse_chars f (c :: acc) r
      end
  end.

Definition parse_string (s : list ascii) : option (string * list ascii) :=
  parse_chars (S (List.length s)) [] s.

(** Values, array elements and object members. Each call uses one unit of
    [fuel]; every second call at least consumes one character. *)
Fixpoint parse_value (fuel : nat) (s : list ascii) : option (json * list ascii) :=
  match fuel with
  | O => None
  | S f =>
      match skip_ws s with
      | [] => None
      | c :: r =>
          if (code c =? 34)%N then
            match parse_string r with
            | Some (str, r') => Some (JStr str, r')
            | None => None
            end
          else if (code c =? 91)%N then
            match skip_ws r with
            | "]"%char :: r' => Some (JArr [], r')
            | _ => parse_elements f [] r
            end
          else if (code c =? 123)%N then
            match skip_ws r with
            | "}"%char :: r' => Some (JObj [], r')
            | _ => parse_members f [] r
            end
          else if ((code c =? 45)%N || is_digit c) then parse_number (c :: r)
          else
            match c :: r with
            | "n"%char :: "u"%char :: "l"%char :: "l"%char :: r' =>
                Some (JNull, r')
            | "t"%char :: "r"%char :: "u"%char :: "e"%char :: r' =>
                Some (JBool true, r')
            | "f"%char :: "a"%char :: "l"%char :: "s"%char :: "e"%char :: r' =>
                Some (JBool false, r')
            | _ => None
            end
      end
  end
with parse_elements (fuel : nat) (acc : list json) (s : list ascii)
  : option (json * list ascii) :=
  match fuel with
  | O => None
  | S f =>
      match parse_value f s with
      | None => None
      | Some (v, r) =>
          match skip_ws r with
          | ","%char :: r' => parse_elements f (v :: acc) r'
          | "]"%char :: r' => Some (JArr (rev (v :: acc)), r')
          | _ => None
          end
      end
  end
with parse_members (fuel : nat) (acc : list (string * json)) (s : list ascii)
  : option (json * list ascii) :=
  match fuel with
  | O => None
  | S f =>
      match skip_ws s with
      | c :: r =>
          if (code c =? 34)%N then
            match parse_string r with
            | None => None
            | Some (k, r1) =>
                match skip_ws r1 with
                | ":"%char :: r2 =>
                    match parse_value f r2 with
                    | None => None
                    | Some (v, r3) =>
                        match skip_ws r3 with
                        | ","%char :: r4 => parse_members f ((k, v) :: acc) r4
                        | "}"%char :: r4 =>
                            Some (JObj (rev ((k, v) :: acc)), r4)
                        | _ => None
                        end
                    end
                | _ => None
                end
            end
          else None
      | [] => None
      end
  end.

(** [JSON.parse text]: [None] stands for the [SyntaxError] it throws. *)
Definition parse (text : string) : option json :=
  let s := list_ascii_of_string text in
  match parse_value (2 * List.length s + 2) s with
  | Some (v, r) =>
      match skip_ws r with
      | [] => Some v
      | _ => None
      end
  | None => None
  end.

(** Text written with ['] where JSON has its double quote. *)
Definition quoted (s : string) : string :=
  string_of_list_ascii
    (map (fun c => if (code c =? 39)%N then ascii_of_N 34 else c)
         (list_ascii_of_string s)).

End Json.

Definition JSON_parse := Json.parse.


(** ** The recorder and the classifier adapter ([AudioRecorder.tsx]) *)

Module Recorder.
Import Js.

(** What an awaited platform or SDK call answered: the promise resolved
    with a value or was rejected with an error. *)
Inductive answer (A : Type) :=
| Resolved (a : A)
| Rejected (err : string).
Arguments Resolved {A} a.
Arguments Rejected {A} err.

(** How a function of the component ends: it returns, or it throws. *)
Inductive outcome (A : Type) :=
| Returns (a : A)
| Throws (err : string).
Arguments Returns {A} a.
Arguments Throws {A} err.

Definition blob := list Byte.byte.

Inductive recorder_state := Inactive | Recording.

(** What the component does to the platform, to its own React state and
    to its caller, in the order it does it. *)
Inductive event :=
| GetUserMedia
| CreateAnalyser
| MediaRecorderStart
| MediaRecorderStop
| SetIsRecording (b : bool)
| SetIsAnalyzing (b : bool)
| SetAudioLevelZero
| SampleAudioLevel
| RequestAnimationFrame
| CancelAnimationFrame (handle : N)
| NewBlob (bytes : blob)
| ReadAsDataURL (bytes : blob)
| GenerateText
| ConsoleError (msg : string) (err : string)
| OnRecordingComplete (audioData : option string) (analysis : json)
| TrackStop
| AudioContextClose.

(** State and refs of the component. [microphone] tells whether the
    tracks of the acquired stream are live. [isAnalyzing] is a state of
    the component in the current file and a prop in the earlier variant. *)
Record state := State {
  isRecording : bool;
  isAnalyzing : bool;
  mediaRecorderRef : option recorder_state;
  audioChunksRef : list blob;
  animationFrameRef : option N;
  analyserRef : bool;
  microphone : bool
}.

Definition initial : state :=
  {| isRecording := false; isAnalyzing := false; mediaRecorderRef := None;
     audioChunksRef := []; animationFrameRef := None; analyserRef := false;
     microphone := false |}.

(** [monitorAudioLevel]: [updateLevel] reads the [isRecording] of the
    render that created it; [handle] is what [requestAnimationFrame]
    answers. *)
Definition monitorAudioLevel (analyser : bool) (isRecording_seen : bool)
  (handle : N) : list event * option N :=
  if analyser then
    if isRecording_seen then
      ([SampleAudioLevel; RequestAnimationFrame], Some handle)
    else ([], None)
  else ([], None).

(** [startRecording], given the answer of [getUserMedia]. *)
Definition startRecording (st : state) (media : answer unit) (handle : N)
  : state * list event :=
  match media with
  | Resolved _ =>
      let '(monitor, frame) := monitorAudioLevel true (isRecording st) handle in
      ({| isRecording := true;
          isAnalyzing := isAnalyzing st;
          mediaRecorderRef := Some Recording;
          audioChunksRef := [];
          animationFrameRef :=
            match frame with
            | Some h => Some h
            | None => animationFrameRef st
            end;
          analyserRef := true;
          microphone := true |},
       [GetUserMedia; CreateAnalyser; MediaRecorderStart; SetIsRecording true]
         ++ monitor)
  | Rejected err =>
      (st, [GetUserMedia; ConsoleError "Failed to start recording:" err])
  end.

(** [mediaRecorder.ondataavailable] *)
Definition ondataavailable (st : state) (data : blob) : state :=
  {| isRecording := isRecording st; isAnalyzing := isAnalyzing st;
     mediaRecorderRef := mediaRecorderRef st;
     audioChunksRef := audioChunksRef st ++ [data];
     animationFrameRef := animationFrameRef st;
     analyserRef := analyserRef st; microphone := microphone st |}.

(** [s.split(c)] *)
Fixpoint split (c : ascii) (s : string) : list string :=
  match s with
  | EmptyString => [EmptyString]
  | String a r =>
      if Ascii.eqb a c then EmptyString :: split c r
      else
        match split c r with
        | h :: t => String a h :: t
        | [] => [String a EmptyString]
        end
  end.

(** [dataUrl.split(',')[1]]: [None] is [undefined]. *)
Definition base64Data (dataUrl : string) : option string :=
  nth_error (split ","%char dataUrl) 1.

Definition fallback_action : string :=
  "Check if baby needs feeding, changing, or comfort".

(** The record [analyzeAudio] returns when the reply is not JSON. *)
Definition fallback_analysis (text : string) : json :=
  JObj [("type", JStr "general");
        ("urgency", JStr "medium");
        ("confidence", of_Z 75);
        ("action", JStr fallback_action);
        ("explanation", JStr text)].

(** [analyzeAudio], given the answer of [blink.ai.generateText]. The
    audio is not part of the request. *)
Definition analyzeAudio (audioBase64 : option string) (reply : answer string)
  : list event * outcome json :=
  match reply with
  | Rejected err => ([GenerateText], Throws err)
  | Resolved text =>
      match JSON_parse text with
      | Some v => ([GenerateText], Returns v)
      | None => ([GenerateText], Returns (fallback_analysis text))
      end
  end.

Definition cancel_frame (handle : option N) : list event :=
  match handle with
  | Some h => if (h =? 0)%N then [] else [CancelAnimationFrame h]
  | None => []
  end.

(** The [try]/[catch] of [onstop] around the analysis and the callback. *)
Definition analyze_and_report (base64 : option string) (reply : answer string)
  : list event :=
  match analyzeAudio base64 reply with
  | (evs, Returns analysis) => evs ++ [OnRecordingComplete base64 analysis]
  | (evs, Throws err) =>
      evs ++ [ConsoleError "Audio analysis failed:" err;
              OnRecordingComplete base64 JNull]
  end.

(** [mediaRecorder.onstop] of the current file, given the answers of the
    file reader and of the text generation. It returns, or its promise is
    rejected when the reader fails. *)
Definition onstop (st : state) (reader : answer string) (reply : answer string)
  : state * list event * outcome unit :=
  let bytes := concat (audioChunksRef st) in
  let before :=
    [SetIsAnalyzing true; SetIsRecording false; SetAudioLevelZero]
      ++ cancel_frame (animationFrameRef st)
      ++ [NewBlob bytes; ReadAsDataURL bytes] in
  match reader with
  | Rejected err =>
      ({| isRecording := false; isAnalyzing := true;
          mediaRecorderRef := Some Inactive;
          audioChunksRef := audioChunksRef st;
          animationFrameRef := animationFrameRef st;
          analyserRef := analyserRef st; microphone := microphone st |},
       before, Throws err)
  | Resolved dataUrl =>
      let base64 := base64Data dataUrl in
      ({| isRecording := false; isAnalyzing := false;
          mediaRecorderRef := Some Inactive;
          audioChunksRef := audioChunksRef st;
          animationFrameRef := animationFrameRef st;
          analyserRef := analyserRef st; microphone := false |},
       before ++ analyze_and_report base64 reply
         ++ [SetIsAnalyzing false; TrackStop; AudioContextClose],
       Returns tt)
  end.

(** [mediaRecorder.onstop] of the earlier variant. *)
Definition onstop_earlier (st : state) (reader : answer string)
  (reply : answer string) : state * list event * outcome unit :=
  let bytes := concat (audioChunksRef st) in
  let before := [NewBlob bytes; ReadAsDataURL bytes] in
  match reader with
  | Rejected err =>
      ({| isRecording := isRecording st; isAnalyzing := isAnalyzing st;
          mediaRecorderRef := Some Inactive;
          audioChunksRef := audioChunksRef st;
          animationFrameRef := animationFrameRef st;
          analyserRef := analyserRef st; microphone := microphone st |},
       before, Throws err)
  | Resolved dataUrl =>
      let base64 := base64Data dataUrl in
      ({| isRecording := isRecording st; isAnalyzing := isAnalyzing st;
          mediaRecorderRef := Some Inactive;
          audioChunksRef := audioChunksRef st;
          animationFrameRef := animationFrameRef st;
          analyserRef := analyserRef st; microphone := false |},
       before ++ analyze_and_report base64 reply
         ++ [TrackStop; AudioContextClose],
       Returns tt)
  end.

(** [stopRecording] of the current file: [stop()] makes the recorder
    deliver its last chunk and then run [onstop]. *)
Definition stopRecording (st : state) (last : blob) (reader : answer string)
  (reply : answer string) : state * list event * outcome unit :=
  match mediaRecorderRef st with
  | Some Recording =>
      let '(st', evs, out) := onstop (ondataavailable st last) reader reply in
      (st', MediaRecorderStop :: evs, out)
  | _ => (st, [], Returns tt)
  end.

(** [stopRecording] of the earlier variant: it tests [isRecording] and
    resets the flags itself, before the handler runs. [stop()] on a
    recorder that is already inactive fires nothing. *)
Definition stopRecording_earlier (st : state) (last : blob)
  (reader : answer string) (reply : answer string)
  : state * list event * outcome unit :=
  match mediaRecorderRef st with
  | Some rs =>
      if isRecording st then
        let st1 :=
          {| isRecording := false; isAnalyzing := isAnalyzing st;
             mediaRecorderRef := mediaRecorderRef st;
             audioChunksRef := audioChunksRef st;
             animationFrameRef := animationFrameRef st;
             analyserRef := analyserRef st; microphone := microphone st |} in
        let flags :=
          [MediaRecorderStop; SetIsRecording false; SetAudioLevelZero]
            ++ cancel_frame (animationFrameRef st) in
        match rs with
        | Recording =>
            let '(st', evs, out) :=
              onstop_earlier (ondataavailable st1 last) reader reply in
            (st', flags ++ evs, out)
        | Inactive => (st1, flags, Returns tt)
        end
      else (st, [], Returns tt)
  | None => (st, [], Returns tt)
  end.

End Recorder.

(** ** The recording store: remote table and local-storage fallback *)

Module Store.
Import Js.

Record User := { user_id : string; email : string }.

(** The object [handleSaveRecording] builds. The four fields copied from
    the analysis hold whatever the analysis held. *)
Record Recording := {
  id : string;
  userId : string;
  type : value;
  urgency : value;
  confidence : value;
  action : value;
  audioData : string;
  timestamp : string;
  createdAt : string
}.

(** The text of a local-storage slot, by what the platform makes of it:
    the empty string is falsy, [JSON.parse] reads the text as an array of
    recordings or as another value, or rejects it. [JSON.stringify] of a
    list [rs] writes [JsonArray rs]: the text that reads back as [rs]. *)
Inductive text :=
| EmptyText
| JsonArray (rs : list Recording)
| JsonOther
| NotJson.

Record World := {
  table : list Recording;
  localStorage : gmap string text
}.

Definition key (userId : string) : string := "recordings_" +:+ userId.

Definition has_id (i : string) (r : Recording) : bool := String.eqb (id r) i.

Definition owned_by (u : string) (r : Recording) : bool :=
  String.eqb (userId r) u.

(** [recordings.filter(r => r.id !== id)] *)
Definition without (i : string) (rs : list Recording) : list Recording :=
  List.filter (fun r => negb (has_id i r)) rs.

(** Modelled from the spec: the remote persistence endpoint, which is
    not part of the repository. It offers create, list (filter by user,
    order by creation time descending, limit 20) and delete by record
    identifier. The table is the sequence of created records; rows with
    equal creation times are listed latest-created first. *)
Fixpoint insert_desc (r : Recording) (rs : list Recording) : list Recording :=
  match rs with
  | [] => [r]
  | x :: rest =>
      if String.ltb (createdAt x) (createdAt r) then r :: x :: rest
      else x :: insert_desc r rest
  end.

(** Modelled from the spec: ordering by creation time, descending. *)
Definition order_desc (rs : list Recording) : list Recording :=
  fold_right insert_desc [] rs.

(** Modelled from the spec: [blink.db.recordings.create]. *)
Definition db_create (r : Recording) (t : list Recording) : list Recording :=
  t ++ [r].

(** Modelled from the spec: [blink.db.recordings.list] with
    [where: { userId }], [orderBy: { createdAt: 'desc' }], [limit: 20]. *)
Definition db_list (u : string) (t : list Recording) : list Recording :=
  firstn 20 (order_desc (List.filter (owned_by u) t)).

(** Modelled from the spec: [blink.db.recordings.delete]. *)
Definition db_delete (i : string) (t : list Recording) : list Recording :=
  without i t.

(** [localStorage.setItem(key, JSON.stringify(rs))], for a write that
    the storage accepts. *)
Definition setItem (u : string) (rs : list Recording) (w : World) : World :=
  {| table := table w;
     localStorage := <[key u := JsonArray rs]> (localStorage w) |}.

(** The list the fallback of [loadRecordings] reads for a user. *)
Definition local_list (w : World) (u : string) : list Recording :=
  match localStorage w !! key u with
  | Some (JsonArray rs) => rs
  | _ => []
  end.

Inductive log :=
| ConsoleLog (msg : string)
| ConsoleError (msg : string).

End Store.

(** ** [App.tsx] *)

Module App.
Import Js Store.

Record state := State {
  user : option User;
  loading : bool;
  isAnalyzing : bool;
  currentAnalysis : json;
  currentAudioData : option string
}.

Definition initial : state :=
  {| user := None; loading := true; isAnalyzing := false;
     currentAnalysis := JNull; currentAudioData := None |}.

(** The [onAuthStateChanged] subscription. *)
Definition onAuthStateChanged (st : state) (u : option User) (isLoading : bool)
  : state :=
  {| user := u; loading := isLoading; isAnalyzing := isAnalyzing st;
     currentAnalysis := currentAnalysis st;
     currentAudioData := currentAudioData st |}.

Definition handleRecordingComplete (st : state) (audioData : option string)
  (analysis : json) : state :=
  {| user := user st; loading := loading st; isAnalyzing := false;
     currentAnalysis := analysis; currentAudioData := audioData |}.

(** What [handleSaveRecording] reads from the platform: [Date.now()],
    [Math.random().toString(36)] and the two [new Date().toISOString()]. *)
Record clock := {
  now : Z;
  random36 : string;
  iso_timestamp : string;
  iso_createdAt : string
}.

Definition new_id (c : clock) : string :=
  "rec_" +:+ pretty (now c) +:+ "_" +:+ substring 2 9 (random36 c).

Definition newRecording (c : clock) (u : User) (analysis : json)
  (audio : string) : Recording :=
  {| id := new_id c;
     userId := user_id u;
     type := get analysis "type";
     urgency := get analysis "urgency";
     confidence := get analysis "confidence";
     action := get analysis "action";
     audioData := audio;
     timestamp := iso_timestamp c;
     createdAt := iso_createdAt c |}.

(** The fallback branch: [None] when [JSON.parse] or [unshift] throws. *)
Definition save_local (r : Recording) (u : string) (w : World) : option World :=
  let stored := localStorage w !! key u in
  let parsed :=
    match stored with
    | None => Some []
    | Some EmptyText => Some []
    | Some (JsonArray rs) => Some rs
    | Some JsonOther => None
    | Some NotJson => None
    end in
  match parsed with
  | None => None
  | Some rs =>
      let recordings := r :: rs in
      let recordings :=
        if (50 <? List.length recordings)%nat then firstn 50 recordings
        else recordings in
      Some (setItem u recordings w)
  end.

Definition clear (st : state) : state :=
  {| user := user st; loading := loading st; isAnalyzing := isAnalyzing st;
     currentAnalysis := JNull; currentAudioData := None |}.

(** [handleSaveRecording]; [remote_up] tells whether the call to
    [blink.db.recordings.create] succeeds. *)
Definition handleSaveRecording (st : state) (c : clock) (remote_up : bool)
  (w : World) : state * World * list log :=
  match user st, currentAudioData st with
  | Some u, Some audio =>
      if truthy_json (currentAnalysis st) && truthy_string audio then
        let r := newRecording c u (currentAnalysis st) audio in
        if remote_up then
          (clear st,
           {| table := db_create r (table w);
              localStorage := localStorage w |},
           [])
        else
          match save_local r (user_id u) w with
          | Some w' =>
              (clear st, w',
               [ConsoleLog "Database not available, using localStorage:"])
          | None =>
              (st, w,
               [ConsoleLog "Database not available, using localStorage:";
                ConsoleError "Failed to save recording:"])
          end
      else (st, w, [])
  | _, _ => (st, w, [])
  end.

End App.

(** ** The history component *)

Module History.
Import Js Store.

Record state := State {
  recordings : list Recording;
  loading : bool;
  user : option User;
  usingLocalStorage : bool
}.

Definition initial : state :=
  {| recordings := []; loading := true; user := None;
     usingLocalStorage := false |}.

(** [loadRecordings]; [remote_up] tells whether the call to
    [blink.db.recordings.list] succeeds. *)
Definition loadRecordings (st : state) (userId : string) (remote_up : bool)
  (w : World) : state * list log :=
  if remote_up then
    ({| recordings := db_list userId (table w); loading := false;
        user := user st; usingLocalStorage := false |}, [])
  else
    match localStorage w !! key userId with
    | Some (JsonArray rs) =>
        ({| recordings := rs; loading := false; user := user st;
            usingLocalStorage := true |}, [])
    | Some JsonOther =>
        ({| recordings := []; loading := false; user := user st;
            usingLocalStorage := true |}, [])
    | Some NotJson =>
        ({| recordings := []; loading := false; user := user st;
            usingLocalStorage := true |},
         [ConsoleError "Failed to parse stored recordings:"])
    | Some EmptyText | None =>
        ({| recordings := []; loading := false; user := user st;
            usingLocalStorage := true |}, [])
    end.

(** The [onAuthStateChanged] subscription: it lists for the user it is
    told about. *)
Definition onAuthStateChanged (st : state) (u : option User) (remote_up : bool)
  (w : World) : state * list log :=
  let st1 :=
    {| recordings := recordings st; loading := loading st; user := u;
       usingLocalStorage := usingLocalStorage st |} in
  match u with
  | Some usr => loadRecordings st1 (user_id usr) remote_up w
  | None => (st1, [])
  end.

(** The two places where [deleteRecording] writes the local list. *)
Definition delete_local (st : state) (i : string) (w : World) : World :=
  match user st with
  | Some u => setItem (user_id u) (without i (recordings st)) w
  | None => w
  end.

(** [deleteRecording]; [remote_up] tells whether the call to
    [blink.db.recordings.delete] succeeds, when it is made. The deletion
    runs to its end before anything else happens, so the render the click
    came from is the current one. *)
Definition deleteRecording (st : state) (i : string) (remote_up : bool)
  (w : World) : state * World :=
  let w' :=
    if negb (usingLocalStorage st) then
      if remote_up then
        {| table := db_delete i (table w); localStorage := localStorage w |}
      else delete_local st i w
    else delete_local st i w in
  ({| recordings := without i (recordings st); loading := loading st;
      user := user st; usingLocalStorage := usingLocalStorage st |}, w').

End History.

(** ** Vocabulary of the properties *)

Module Trace.
Import Js Recorder.

(** The calls of the recording-complete callback, in order. *)
Fixpoint callbacks (evs : list event) : list (option string * json) :=
  match evs with
  | [] => []
  | OnRecordingComplete audio analysis :: rest =>
      (audio, analysis) :: callbacks rest
  | _ :: rest => callbacks rest
  end.

Definition is_blob (e : event) : bool :=
  match e with NewBlob _ => true | _ => false end.
Definition is_encoding (e : event) : bool :=
  match e with ReadAsDataURL _ => true | _ => false end.
Definition is_classification (e : event) : bool :=
  match e with GenerateText => true | _ => false end.
Definition is_callback (e : event) : bool :=
  match e with OnRecordingComplete _ _ => true | _ => false end.
Definition is_release (e : event) : bool :=
  match e with TrackStop => true | _ => false end.
Definition is_recorder_start (e : event) : bool :=
  match e with MediaRecorderStart => true | _ => false end.
Definition is_error_log (e : event) : bool :=
  match e with ConsoleError _ _ => true | _ => false end.

(** Position of the first event of a kind. *)
Fixpoint index_of (p : event -> bool) (evs : list event) : option nat :=
  match evs with
  | [] => None
  | e :: rest =>
      if p e then Some 0%nat else option_map S (index_of p rest)
  end.

(** Both kinds of event occur, the first [p] before the first [q]. *)
Definition before (p q : event -> bool) (evs : list event) : bool :=
  match index_of p evs, index_of q evs with
  | Some i, Some j => (i <? j)%nat
  | _, _ => false
  end.

Definition occurrences (p : event -> bool) (evs : list event) : nat :=
  List.length (List.filter p evs).

(** The microphone is released and the audio encoded before the
    classification request. *)
Definition released_and_encoded_first (evs : list event) : bool :=
  before is_release is_classification evs
  && before is_encoding is_classification evs.

End Trace.

Module Analysis.
Import Js.

Definition valid_urgency (v : value) : bool :=
  match v with
  | Some (JStr s) =>
      String.eqb s "low" || String.eqb s "medium" || String.eqb s "high"
  | _ => false
  end.

Definition valid_confidence (v : value) : bool :=
  match v with
  | Some (JNum n) =>
      match num_to_Z n with
      | Some k => ((0 <=? k) && (k <=? 100))%Z
      | None => false
      end
  | _ => false
  end.

(** Urgency is one of low, medium, high and confidence is an integer
    between 0 and 100. *)
Definition valid (a : json) : bool :=
  valid_urgency (get a "urgency") && valid_confidence (get a "confidence").

Definition valid_recording (r : Store.Recording) : bool :=
  valid_urgency (Store.urgency r) && valid_confidence (Store.confidence r).

End Analysis.

(** The whole application: both components over the shared stores. *)

Module System.
Import Js Store.

(** One press of the save button after one completed recording. *)
Record request := {
  req_audio : option string;
  req_analysis : json;
  req_clock : App.clock;
  req_remote_up : bool
}.

Definition save_request (s : App.state * World) (q : request)
  : App.state * World :=
  let st := App.handleRecordingComplete (fst s) (req_audio q) (req_analysis q) in
  let '(st', w', _) :=
    App.handleSaveRecording st (req_clock q) (req_remote_up q) (snd s) in
  (st', w').

Definition save_all (qs : list request) (st : App.state) (w : World)
  : App.state * World :=
  fold_left save_request qs (st, w).

(** The request makes [handleSaveRecording] pass its guard. *)
Definition savable (q : request) : bool :=
  truthy_json (req_analysis q)
  && match req_audio q with
     | Some audio => truthy_string audio
     | None => false
     end.

(** The recording a savable request builds for a user. *)
Definition recording_of (u : User) (q : request) : Recording :=
  App.newRecording (req_clock q) u (req_analysis q)
    (match req_audio q with Some audio => audio | None => EmptyString end).

Record system := {
  app : App.state;
  history : History.state;
  world : World
}.

Definition initial : system :=
  {| app := App.initial; history := History.initial;
     world := {| table := []; localStorage := ∅ |} |}.

(** What can happen to the application, with what the platform answers. *)
Inductive op :=
| AppAuth (u : option User) (isLoading : bool)
| HistoryAuth (u : option User) (remote_up : bool)
| Complete (audio : option string) (analysis : json)
| Save (c : App.clock) (remote_up : bool)
| Delete (i : string) (remote_up : bool).

Definition step (s : system) (o : op) : system :=
  match o with
  | AppAuth u l =>
      {| app := App.onAuthStateChanged (app s) u l;
         history := history s; world := world s |}
  | HistoryAuth u up =>
      {| app := app s;
         history := fst (History.onAuthStateChanged (history s) u up (world s));
         world := world s |}
  | Complete audio analysis =>
      {| app := App.handleRecordingComplete (app s) audio analysis;
         history := history s; world := world s |}
  | Save c up =>
      let '(st, w, _) := App.handleSaveRecording (app s) c up (world s) in
      {| app := st; history := history s; world := w |}
  | Delete i up =>
      let '(h, w) := History.deleteRecording (history s) i up (world s) in
      {| app := app s; history := h; world := w |}
  end.

Definition run (ops : list op) (s : system) : system := fold_left step ops s.




Definition mentions (i : string) (rs : list Recording) : bool :=
  existsb (has_id i) rs.

(** Creation times never increase along the list. *)
Fixpoint newest_first (rs : list Recording) : bool :=
  match rs with
  | [] => true
  | x :: rest =>
      match rest with
      | [] => true
      | y :: _ => negb (String.ltb (createdAt x) (createdAt y))
      end && newest_first rest
  end.

(** The saved recording is later than every row the user has. *)
Definition later_than_all (r : Recording) (u : string) (t : list Recording)
  : bool :=
  forallb (fun x => String.ltb (createdAt x) (createdAt r))
          (List.filter (owned_by u) t).

(** The rows of a user that are not earlier than the recording [r]. *)
Definition rivals (r : Recording) (u : string) (t : list Recording)
  : list Recording :=
  List.filter (fun x => negb (String.ltb (createdAt x) (createdAt r)))
              (List.filter (owned_by u) t).

(** The slot of a user is absent, empty or holds an array. *)
Definition slot_readable (w : World) (u : string) : bool :=
  match localStorage w !! key u with
  | Some JsonOther | Some NotJson => false
  | _ => true
  end.

(** What every reachable state satisfies: each local slot is absent or
    holds an array of at most 50 recordings, and the history component
    shows at most 50. *)
Definition sound (s : system) : Prop :=
  (forall u : string,
      slot_readable (world s) u = true
      /\ (List.length (local_list (world s) u) <= 50)%nat)
  /\ (List.length (History.recordings (history s)) <= 50)%nat.

(** Every slot of the local storage holds an array of at most 50
    recordings, and the history component shows at most 50. *)
Definition holds_arrays (s : system) : Prop :=
  (forall (k : string) (v : text),
      localStorage (world s) !! k = Some v ->
      exists rs, v = JsonArray rs /\ (List.length rs <= 50)%nat)
  /\ (List.length (History.recordings (history s)) <= 50)%nat.


End System.

(** ** The buttons of the recorder ([AudioRecorder.tsx], current file) *)

Module RecorderUi.
Import Js Recorder.

(** [disabled] of the record button and of the stop button. *)
Definition record_disabled (st : state) : bool :=
  isRecording st || isAnalyzing st.

Definition stop_disabled (st : state) : bool :=
  negb (isRecording st) || isAnalyzing st.

(** The title under the buttons. *)
Definition title (st : state) : string :=
  if isAnalyzing st then "Analyzing..."
  else if isRecording st then "Recording..."
  else "Ready to Record".

(** What reaches the component: a click on one of its buttons, with what
    the platform answers to the calls the click leads to, or a chunk
    delivered by the recorder while it records. *)
Inductive input :=
| ClickRecord (media : answer unit) (handle : N)
| ClickStop (last : blob) (reader : answer string) (reply : answer string)
| DataAvailable (data : blob).

(** One input: a disabled button passes no click on, and only a recorder
    that records delivers data. *)
Definition ui_step (st : state) (i : input) : state * list event :=
  match i with
  | ClickRecord media handle =>
      if record_disabled st then (st, [])
      else startRecording st media handle
  | ClickStop last reader reply =>
      if stop_disabled st then (st, [])
      else
        let '(st', evs, _) := stopRecording st last reader reply in
        (st', evs)
  | DataAvailable data =>
      match mediaRecorderRef st with
      | Some Recording => (ondataavailable st data, [])
      | _ => (st, [])
      end
  end.

(** Inputs are taken one at a time: a click is handled to its end, the
    awaited answers included, before the next input arrives. *)
Fixpoint ui_run (ins : list input) (st : state) : state * list event :=
  match ins with
  | [] => (st, [])
  | i :: rest =>
      let '(st1, evs1) := ui_step st i in
      let '(st2, evs2) := ui_run rest st1 in
      (st2, evs1 ++ evs2)
  end.

(** The flags, the recorder and the microphone agree. *)
Definition coherent (st : state) : bool :=
  (if isRecording st
   then match mediaRecorderRef st with
        | Some Recording => microphone st && negb (isAnalyzing st)
        | _ => false
        end
   else match mediaRecorderRef st with
        | Some Recording => false
        | _ => isAnalyzing st || negb (microphone st)
        end)
  && match animationFrameRef st with
     | None => true
     | Some _ => false
     end.

Definition is_level_event (e : event) : bool :=
  match e with
  | SampleAudioLevel | RequestAnimationFrame | CancelAnimationFrame _ => true
  | _ => false
  end.

(** The bytes handed to [new Blob] and to the file reader. *)
Fixpoint blobs (evs : list event) : list blob :=
  match evs with
  | [] => []
  | NewBlob b :: rest => b :: blobs rest
  | _ :: rest => blobs rest
  end.

(** The analysis the stop handler reports for a reply. *)
Definition reported (reply : answer string) : json :=
  match reply with
  | Rejected _ => JNull
  | Resolved text =>
      match JSON_parse text with
      | Some v => v
      | None => fallback_analysis text
      end
  end.

(** What the two variants of the stop handler have in common: all they
    do except updating the flags of the component. *)
Definition is_flag_event (e : event) : bool :=
  match e with
  | SetIsRecording _ | SetIsAnalyzing _ | SetAudioLevelZero
  | CancelAnimationFrame _ => true
  | _ => false
  end.

Definition effects (evs : list event) : list event :=
  List.filter (fun e => negb (is_flag_event e)) evs.

End RecorderUi.

(** ** [startRecording] when a step after the acquisition throws *)

Module RecorderSetup.
Import Js Recorder RecorderUi.

(** Where the [try] of [startRecording] is left after [getUserMedia] has
    answered: while the audio context, the source and the analyser are
    set up (before [analyserRef] is assigned), in [new MediaRecorder], or
    in [mediaRecorder.start()]. *)
Inductive stage := BeforeAnalyser | AtMediaRecorder | AtStart.

(** What [startRecording] has done to the component when it reaches its
    [catch] from that stage. The [catch] logs and stops no track. *)
Definition startRecording_throws (st : state) (at_stage : stage) (err : string)
  : state * list event :=
  match at_stage with
  | BeforeAnalyser =>
      (st, [GetUserMedia; ConsoleError "Failed to start recording:" err])
  | AtMediaRecorder =>
      ({| isRecording := isRecording st; isAnalyzing := isAnalyzing st;
          mediaRecorderRef := mediaRecorderRef st;
          audioChunksRef := audioChunksRef st;
          animationFrameRef := animationFrameRef st;
          analyserRef := true; microphone := microphone st |},
       [GetUserMedia; CreateAnalyser;
        ConsoleError "Failed to start recording:" err])
  | AtStart =>
      ({| isRecording := isRecording st; isAnalyzing := isAnalyzing st;
          mediaRecorderRef := Some Inactive;
          audioChunksRef := [];
          animationFrameRef := animationFrameRef st;
          analyserRef := true; microphone := microphone st |},
       [GetUserMedia; CreateAnalyser;
        ConsoleError "Failed to start recording:" err])
  end.

(** The component together with the number of streams that were
    acquired by a start that then threw: nothing holds them any more, so
    their tracks stay live. [microphone] of the component is about the
    stream of the recorder that was started last. *)
Record tracked := Tracked { component : state; abandoned : nat }.

Definition first_state : tracked :=
  {| component := initial; abandoned := 0 |}.

(** The inputs of the component, and a click on the record button that
    acquires the stream and then throws. *)
Inductive input :=
| Plain (i : RecorderUi.input)
| RecordThrows (at_stage : stage) (err : string).

Definition step (t : tracked) (i : input) : tracked * list event :=
  match i with
  | Plain p =>
      let '(st, evs) := ui_step (component t) p in
      ({| component := st; abandoned := abandoned t |}, evs)
  | RecordThrows at_stage err =>
      if record_disabled (component t) then (t, [])
      else
        let '(st, evs) := startRecording_throws (component t) at_stage err in
        ({| component := st; abandoned := S (abandoned t) |}, evs)
  end.

(** Inputs are taken one at a time. *)
Fixpoint run (ins : list input) (t : tracked) : tracked * list event :=
  match ins with
  | [] => (t, [])
  | i :: rest =>
      let '(t1, evs1) := step t i in
      let '(t2, evs2) := run rest t1 in
      (t2, evs1 ++ evs2)
  end.

(** The clicks on the record button that threw after the acquisition
    and were not held back by a disabled button. *)
Fixpoint thrown (ins : list input) (t : tracked) : nat :=
  match ins with
  | [] => 0
  | i :: rest =>
      match i with
      | RecordThrows _ _ =>
          if record_disabled (component t) then 0 else 1
      | Plain _ => 0
      end + thrown rest (fst (step t i))
  end.

(** The streams whose tracks are live. *)
Definition live_streams (t : tracked) : nat :=
  (if microphone (component t) then 1 else 0) + abandoned t.

End RecorderSetup.

(** ** Deletions that overlap *)

Module Overlap.
Import Js Store.

(** [deleteRecording] resumed after its awaited call: the slot is written
    from [recordings], [user] and [usingLocalStorage] of the render the
    click came from ([seen]), the list on screen is updated from the state
    of the moment ([st]). [History.deleteRecording] is the case in which
    nothing happened in between. *)
Definition deleteRecording_from (seen st : History.state) (i : string)
  (remote_up : bool) (w : World) : History.state * World :=
  let w' :=
    if negb (History.usingLocalStorage seen) then
      if remote_up then
        {| table := db_delete i (table w); localStorage := localStorage w |}
      else History.delete_local seen i w
    else History.delete_local seen i w in
  ({| History.recordings := without i (History.recordings st);
      History.loading := History.loading st;
      History.user := History.user st;
      History.usingLocalStorage := History.usingLocalStorage st |}, w').

End Overlap.

(** ** Texts and the result card ([TranslationResult]) *)

Module Text.

Definition code (c : ascii) : N := N_of_ascii c.

(** Every byte is below 128: the text is plain ASCII. *)
Definition ascii_only (s : string) : bool :=
  forallb (fun c => (code c <? 128)%N) (list_ascii_of_string s).

Definition lower_char (c : ascii) : ascii :=
  if ((65 <=? code c) && (code c <=? 90))%N then ascii_of_N (code c + 32)
  else c.

Definition upper_char (c : ascii) : ascii :=
  if ((97 <=? code c) && (code c <=? 122))%N then ascii_of_N (code c - 32)
  else c.

(** [s.toLowerCase()] and [s.toUpperCase()], on the letters of ASCII;
    other bytes are kept. *)
Fixpoint toLowerCase (s : string) : string :=
  match s with
  | EmptyString => EmptyString
  | String c r => String (lower_char c) (toLowerCase r)
  end.

Fixpoint toUpperCase (s : string) : string :=
  match s with
  | EmptyString => EmptyString
  | String c r => String (upper_char c) (toUpperCase r)
  end.

(** [s.charAt(0).toUpperCase() + s.slice(1)] *)
Definition capitalize (s : string) : string :=
  match s with
  | EmptyString => EmptyString
  | String c r => String (upper_char c) r
  end.

(** [labels.includes(s)] *)
Definition includes (labels : list string) (s : string) : bool :=
  existsb (String.eqb s) labels.

(** [s.split(c)] pieces put together again with [c] between them. *)
Fixpoint join (c : ascii) (pieces : list string) : string :=
  match pieces with
  | [] => EmptyString
  | [p] => p
  | p :: rest => p +:+ String c (join c rest)
  end.

Definition has_char (c : ascii) (s : string) : bool :=
  existsb (Ascii.eqb c) (list_ascii_of_string s).

End Text.

Module TranslationResult.
Import Js Recorder Text.

Inductive icon := Utensils | Moon | AlertTriangle | Smile | Eye | Baby.

(** An icon element with its class. *)
Record icon_element := Icon { icon_of : icon; icon_class : string }.

Definition getCryTypeIcon (type : string) : icon_element :=
  let t := toLowerCase type in
  if String.eqb t "hunger" then Icon Utensils "w-5 h-5"
  else if String.eqb t "sleepy" || String.eqb t "tired"
  then Icon Moon "w-5 h-5"
  else if String.eqb t "pain" || String.eqb t "discomfort"
  then Icon AlertTriangle "w-5 h-5"
  else if String.eqb t "happy" || String.eqb t "content"
  then Icon Smile "w-5 h-5"
  else if String.eqb t "attention" || String.eqb t "attention-seeking"
  then Icon Eye "w-5 h-5"
  else Icon Baby "w-5 h-5".

Definition getUrgencyColor (urgency : string) : string :=
  let u := toLowerCase urgency in
  if String.eqb u "high" then "bg-red-500"
  else if String.eqb u "medium" then "bg-yellow-500"
  else if String.eqb u "low" then "bg-green-500"
  else "bg-gray-500".

Definition getCryTypeColor (type : string) : string :=
  let t := toLowerCase type in
  if String.eqb t "hunger"
  then "bg-orange-100 text-orange-800 border-orange-200"
  else if String.eqb t "sleepy" || String.eqb t "tired"
  then "bg-purple-100 text-purple-800 border-purple-200"
  else if String.eqb t "pain" || String.eqb t "discomfort"
  then "bg-red-100 text-red-800 border-red-200"
  else if String.eqb t "happy" || String.eqb t "content"
  then "bg-green-100 text-green-800 border-green-200"
  else if String.eqb t "attention" || String.eqb t "attention-seeking"
  then "bg-blue-100 text-blue-800 border-blue-200"
  else "bg-gray-100 text-gray-800 border-gray-200".

(** The four groups of quick tips; each is rendered under its own test. *)
Inductive tips := HungerTips | SleepyTips | PainTips | GeneralTips.

Definition quick_tips (type : string) : list tips :=
  (if String.eqb (toLowerCase type) "hunger" then [HungerTips] else [])
  ++ (if String.eqb (toLowerCase type) "sleepy" then [SleepyTips] else [])
  ++ (if String.eqb (toLowerCase type) "pain" then [PainTips] else [])
  ++ (if negb (includes ["hunger"; "sleepy"; "pain"] (toLowerCase type))
      then [GeneralTips] else []).

(** A value put between tags: the renderer shows texts and numbers,
    shows nothing for booleans, [null] and [undefined], goes through
    arrays, and throws on any other object. *)
Fixpoint renderable (v : json) : bool :=
  match v with
  | JObj _ => false
  | JArr items => forallb renderable items
  | _ => true
  end.

Definition renderable_value (v : value) : bool :=
  match v with
  | None => true
  | Some j => renderable j
  end.

(** What the card shows. *)
Record card := Card {
  header_icon : icon_element;
  save_button : bool;
  badge_class : string;
  badge_label : string;
  urgency_dot : string;
  urgency_text : string;
  confidence_text : value;
  action_text : value;
  explanation_text : value;
  tips_shown : list tips
}.

Inductive view :=
| Placeholder
| Result (c : card).

(** The component, given its [analysis] and [audioData] props: it
    returns what it shows, or rendering throws (a [type] or an [urgency]
    without [toLowerCase], or an object between tags). *)
Definition render (analysis : json) (audioData : option string)
  : outcome view :=
  if negb (truthy_json analysis) then Returns Placeholder
  else
    match get analysis "type", get analysis "urgency" with
    | Some (JStr type), Some (JStr urgency) =>
        if renderable_value (get analysis "confidence")
           && renderable_value (get analysis "action")
           && renderable_value (get analysis "explanation")
        then
          Returns
            (Result
               {| header_icon := getCryTypeIcon type;
                  save_button :=
                    match audioData with
                    | Some a => truthy_string a
                    | None => false
                    end;
                  badge_class := getCryTypeColor type +:+ " font-medium";
                  badge_label := capitalize type;
                  urgency_dot :=
                    "w-3 h-3 rounded-full " +:+ getUrgencyColor urgency;
                  urgency_text := urgency;
                  confidence_text := get analysis "confidence";
                  action_text := get analysis "action";
                  explanation_text := get analysis "explanation";
                  tips_shown := quick_tips type |})
        else Throws "Objects are not valid as a React child"
    | _, _ => Throws "TypeError"
    end.

(** The category a type is shown as. *)
Inductive category :=
| Hunger | Sleep | Discomfort | Happiness | Attention | Other.

Definition categorize (type : string) : category :=
  let t := toLowerCase type in
  if String.eqb t "hunger" then Hunger
  else if String.eqb t "sleepy" || String.eqb t "tired" then Sleep
  else if String.eqb t "pain" || String.eqb t "discomfort" then Discomfort
  else if String.eqb t "happy" || String.eqb t "content" then Happiness
  else if String.eqb t "attention" || String.eqb t "attention-seeking"
  then Attention
  else Other.

Definition category_icon (c : category) : icon :=
  match c with
  | Hunger => Utensils
  | Sleep => Moon
  | Discomfort => AlertTriangle
  | Happiness => Smile
  | Attention => Eye
  | Other => Baby
  end.

Definition category_color (c : category) : string :=
  match c with
  | Hunger => "bg-orange-100 text-orange-800 border-orange-200"
  | Sleep => "bg-purple-100 text-purple-800 border-purple-200"
  | Discomfort => "bg-red-100 text-red-800 border-red-200"
  | Happiness => "bg-green-100 text-green-800 border-green-200"
  | Attention => "bg-blue-100 text-blue-800 border-blue-200"
  | Other => "bg-gray-100 text-gray-800 border-gray-200"
  end.

End TranslationResult.

(** ** What the history component shows and plays ([RecordingHistory]) *)

Module HistoryView.
Import Js Store Text.

(** The copies of the two helpers in the history component; the icons
    are smaller. *)
Definition getCryTypeIcon (type : string) : TranslationResult.icon_element :=
  let t := toLowerCase type in
  if String.eqb t "hunger"
  then TranslationResult.Icon TranslationResult.Utensils "w-4 h-4"
  else if String.eqb t "sleepy" || String.eqb t "tired"
  then TranslationResult.Icon TranslationResult.Moon "w-4 h-4"
  else if String.eqb t "pain" || String.eqb t "discomfort"
  then TranslationResult.Icon TranslationResult.AlertTriangle "w-4 h-4"
  else if String.eqb t "happy" || String.eqb t "content"
  then TranslationResult.Icon TranslationResult.Smile "w-4 h-4"
  else if String.eqb t "attention" || String.eqb t "attention-seeking"
  then TranslationResult.Icon TranslationResult.Eye "w-4 h-4"
  else TranslationResult.Icon TranslationResult.Baby "w-4 h-4".

Definition getCryTypeColor (type : string) : string :=
  let t := toLowerCase type in
  if String.eqb t "hunger"
  then "bg-orange-100 text-orange-800 border-orange-200"
  else if String.eqb t "sleepy" || String.eqb t "tired"
  then "bg-purple-100 text-purple-800 border-purple-200"
  else if String.eqb t "pain" || String.eqb t "discomfort"
  then "bg-red-100 text-red-800 border-red-200"
  else if String.eqb t "happy" || String.eqb t "content"
  then "bg-green-100 text-green-800 border-green-200"
  else if String.eqb t "attention" || String.eqb t "attention-seeking"
  then "bg-blue-100 text-blue-800 border-blue-200"
  else "bg-gray-100 text-gray-800 border-gray-200".

(** The address [playAudio] hands to [new Audio]. *)
Definition playAudio (audioData : string) : string :=
  "data:audio/wav;base64," +:+ audioData.

End HistoryView.

(** ** What [App.tsx] shows *)

Module AppView.
Import Js Recorder Store.

Inductive screen :=
| LoadingScreen
| SignInScreen
| MainScreen (result : option (outcome TranslationResult.view)).

(** The three returns of [App]; on the main screen the result card is
    there when [isAnalyzing || currentAnalysis]. *)
Definition render (st : App.state) : screen :=
  if App.loading st then LoadingScreen
  else
    match App.user st with
    | None => SignInScreen
    | Some _ =>
        MainScreen
          (if App.isAnalyzing st || truthy_json (App.currentAnalysis st)
           then Some (TranslationResult.render (App.currentAnalysis st)
                        (App.currentAudioData st))
           else None)
    end.

(** The screen offers the Save button. *)
Definition offers_save (sc : screen) : bool :=
  match sc with
  | MainScreen (Some (Returns (TranslationResult.Result c))) =>
      TranslationResult.save_button c
  | _ => false
  end.

(** The application receives the calls of the recording-complete
    callback, in order. *)
Definition receive (st : App.state) (calls : list (option string * json))
  : App.state :=
  fold_left (fun s call => App.handleRecordingComplete s (fst call) (snd call))
            calls st.

End AppView.

(** ** Concrete data for the examples *)

Module Sample.
Import Js Store System.

(** A reply that is well-formed JSON whose urgency and confidence are
    outside the ranges the prompt asks for. *)
Definition out_of_range_reply : string :=
  Json.quoted
    "{'type':'pain','urgency':'critical','confidence':150,'action':'Call a doctor','explanation':'Very loud'}".

(** A recorder in the middle of a recording. *)
Definition recording_state : Recorder.state :=
  {| Recorder.isRecording := true; Recorder.isAnalyzing := false;
     Recorder.mediaRecorderRef := Some Recorder.Recording;
     Recorder.audioChunksRef := [[Byte.x52]];
     Recorder.animationFrameRef := None; Recorder.analyserRef := true;
     Recorder.microphone := true |}.

Definition alice : User :=
  {| user_id := "user_1"; email := "alice@example.com" |}.

Definition signed_in : App.state :=
  App.onAuthStateChanged App.initial (Some alice) false.

Definition empty_world : World := {| table := []; localStorage := ∅ |}.

(** The [n]-th reading of the clock: one millisecond apart. *)
Definition clock_at (n : nat) : App.clock :=
  {| App.now := 1700000000000 + Z.of_nat n;
     App.random36 := "0.4fzyo82mvyr";
     App.iso_timestamp :=
       "2023-11-14T22:13:20." +:+ pretty (100 + Z.of_nat n)%Z +:+ "Z";
     App.iso_createdAt :=
       "2023-11-14T22:13:20." +:+ pretty (100 + Z.of_nat n)%Z +:+ "Z" |}.

Definition request_at (up : bool) (n : nat) : request :=
  {| req_audio := Some "UklGRg==";
     req_analysis := Recorder.fallback_analysis "reply";
     req_clock := clock_at n;
     req_remote_up := up |}.

Definition fifty_one : list request := map (request_at false) (seq 1 51).

(** The recording Alice saves at the [n]-th reading of the clock. *)
Definition recording_at (n : nat) : Recording :=
  recording_of alice (request_at false n).

(** Alice has an analysis on screen, ready to be saved. *)
Definition ready : App.state :=
  App.handleRecordingComplete signed_in (Some "UklGRg==")
    (Recorder.fallback_analysis "reply").

(** The history component after listing for Alice, remotely or locally. *)
Definition shown (up : bool) (w : World) : History.state :=
  fst (History.onAuthStateChanged History.initial (Some alice) up w).

Definition remote_world : World :=
  {| table := [recording_at 1; recording_at 2]; localStorage := ∅ |}.

Definition local_world : World :=
  setItem "user_1" [recording_at 2; recording_at 1] empty_world.

(** The remote table holds two recordings of Alice; her local list holds
    a third one, saved during an outage. *)
Definition mixed_world : World :=
  setItem "user_1" [recording_at 3] remote_world.

(** The remote table holds twenty recordings of Alice, all saved later
    than the third reading of the clock. *)
Definition crowded_world : World :=
  {| table := map recording_at (seq 10 20); localStorage := ∅ |}.

(** Alice's slot holds text that is not JSON. *)
Definition broken_world : World :=
  {| table := []; localStorage := {[ key "user_1" := NotJson ]} |}.

(** Alice signs in, completes a recording and saves it remotely. *)
Definition one_remote_save : list op :=
  [AppAuth (Some alice) false;
   Complete (Some "UklGRg==") (Recorder.fallback_analysis "reply");
   Save (clock_at 3) true].

(** The same with the database down. *)
Definition one_local_save : list op :=
  [AppAuth (Some alice) false;
   Complete (Some "UklGRg==") (Recorder.fallback_analysis "reply");
   Save (clock_at 3) false].


End Sample.

(** * Properties *)

(** ** The classifier adapter *)

Section Classifier.
Import Js Recorder Sample.

(** [JSON.parse] on a few texts. *)

Example parse_prose : JSON_parse "The baby is hungry" = None.
Proof. vm_compute; reflexivity. Qed.

Example parse_trailing_comma : JSON_parse "[1,2,]" = None.
Proof. vm_compute; reflexivity. Qed.

Example parse_leading_zero : JSON_parse "01" = None.
Proof. vm_compute; reflexivity. Qed.

Example parse_scalar : JSON_parse " 42 " = Some (of_Z 42).
Proof. vm_compute; reflexivity. Qed.

Example parse_decimal : JSON_parse "-2.50e3" = Some (JNum (Num (-250) 1)).
Proof. vm_compute; reflexivity. Qed.

Example parse_nested :
  JSON_parse (Json.quoted "{'a':[true,null,{'b':'x\u0041'}],'a':[]}")
  = Some (JObj [("a", JArr [JBool true; JNull; JObj [("b", JStr "xA")]]);
                ("a", JArr [])]).
Proof. vm_compute; reflexivity. Qed.

Example underflow_is_falsy :
  option_map truthy_json (JSON_parse "1e-400") = Some false
  /\ option_map truthy_json (JSON_parse "5e-324") = Some true.
Proof. vm_compute. split; reflexivity. Qed.

Example repeated_key_keeps_last :
  get (JObj [("a", of_Z 1); ("a", of_Z 2)]) "a" = Some (of_Z 2).
Proof. reflexivity. Qed.

Lemma analyzeAudio_parsed (audio : option string) (text : string) (v : json) :
  JSON_parse text = Some v ->
  analyzeAudio audio (Resolved text) = ([GenerateText], Returns v).
Proof. intros H. unfold analyzeAudio. now rewrite H. Qed.

Lemma analyzeAudio_rejected (audio : option string) (err : string) :
  analyzeAudio audio (Rejected err) = ([GenerateText], Throws err).
Proof. reflexivity. Qed.

Lemma fallback_analysis_valid (text : string) :
  Analysis.valid (fallback_analysis text) = true.
Proof. reflexivity. Qed.

(** C4. A reply that [JSON.parse] rejects makes [analyzeAudio] return the
    fixed record: type general, urgency medium, confidence 75, the fixed
    action text, and the raw reply as explanation. *)
Theorem analyzeAudio_unparsable_reply (audio : option string) (text : string) :
  JSON_parse text = None ->
  snd (analyzeAudio audio (Resolved text)) = Returns (fallback_analysis text)
  /\ get (fallback_analysis text) "type" = Some (JStr "general")
  /\ get (fallback_analysis text) "urgency" = Some (JStr "medium")
  /\ get (fallback_analysis text) "confidence" = Some (of_Z 75)
  /\ get (fallback_analysis text) "action"
     = Some (JStr "Check if baby needs feeding, changing, or comfort")
  /\ get (fallback_analysis text) "explanation" = Some (JStr text).
Proof.
  intros Hparse. unfold analyzeAudio. rewrite Hparse.
  repeat split; reflexivity.
Qed.

Lemma analyzeAudio_unparsable_reply_witness :
  JSON_parse "I think the baby is hungry" = None
  /\ snd (analyzeAudio (Some "UklGRg==") (Resolved "I think the baby is hungry"))
     = Returns (fallback_analysis "I think the baby is hungry").
Proof.
  split; [vm_compute; reflexivity |].
  apply (analyzeAudio_unparsable_reply (Some "UklGRg==")
           "I think the baby is hungry").
  vm_compute; reflexivity.
Defined.

Lemma out_of_range_reply_parses :
  JSON_parse out_of_range_reply
  = Some (JObj [("type", JStr "pain"); ("urgency", JStr "critical");
                ("confidence", of_Z 150); ("action", JStr "Call a doctor");
                ("explanation", JStr "Very loud")]).
Proof. vm_compute; reflexivity. Qed.

(** C9, as stated, fails: the adapter returns a parsed reply as it is, so
    an urgency outside low/medium/high and a confidence above 100 reach
    the caller, and the recording built from that analysis carries them. *)
Lemma analyzeAudio_not_always_valid :
  ~ (forall (audio : option string) (reply : answer string) (a : json),
        snd (analyzeAudio audio reply) = Returns a ->
        Analysis.valid a = true
        /\ Analysis.valid_recording
             (App.newRecording (clock_at 1) alice a "UklGRg==") = true).
Proof.
  intros H.
  destruct (H None (Resolved out_of_range_reply) _
              (f_equal snd
                 (analyzeAudio_parsed None _ _ out_of_range_reply_parses)))
    as [Hvalid _].
  vm_compute in Hvalid. discriminate Hvalid.
Qed.

(** C9, amended. A reply that parses is returned unchanged, whatever its
    urgency and confidence; the fixed record of the other path has urgency
    medium and confidence 75; a recording carries the urgency and the
    confidence of its analysis unchanged. *)
Theorem analysis_ranges (audio : option string) (text : string)
  (c : App.clock) (u : Store.User) (a : json) (data : string) :
  match JSON_parse text with
  | Some v => snd (analyzeAudio audio (Resolved text)) = Returns v
  | None =>
      snd (analyzeAudio audio (Resolved text)) = Returns (fallback_analysis text)
      /\ Analysis.valid (fallback_analysis text) = true
  end
  /\ Store.urgency (App.newRecording c u a data) = get a "urgency"
  /\ Store.confidence (App.newRecording c u a data) = get a "confidence"
  /\ Analysis.valid_recording (App.newRecording c u a data) = Analysis.valid a.
Proof.
  split.
  - unfold analyzeAudio. destruct (JSON_parse text); [reflexivity |].
    split; reflexivity.
  - repeat split; reflexivity.
Qed.

End Classifier.

(** ** The recorder *)

Section RecorderProperties.
Import Js Recorder Trace Sample.

Lemma callbacks_app (xs ys : list event) :
  callbacks (xs ++ ys) = callbacks xs ++ callbacks ys.
Proof.
  induction xs as [| e xs IH]; [reflexivity |].
  destruct e; simpl; rewrite IH; reflexivity.
Qed.

Lemma callbacks_cancel_frame (h : option N) : callbacks (cancel_frame h) = [].
Proof. destruct h as [n |]; [| reflexivity]. simpl. now destruct (n =? 0)%N. Qed.

Lemma analyze_and_report_rejected (base64 : option string) (err : string) :
  analyze_and_report base64 (Rejected err)
  = [GenerateText; ConsoleError "Audio analysis failed:" err;
     OnRecordingComplete base64 JNull].
Proof. reflexivity. Qed.

(** C5. When the classification request is rejected, the handler of the
    stop event (in both variants) calls the recording-complete callback
    exactly once, with the captured audio and a null analysis, and then
    returns normally; the application then holds that audio and a null
    analysis. *)
Theorem transport_failure_reports_null (st : state) (dataUrl err : string)
  (app : App.state) :
  let '(_, evs, out) := onstop st (Resolved dataUrl) (Rejected err) in
  let '(_, evs', out') := onstop_earlier st (Resolved dataUrl) (Rejected err) in
  out = Returns tt
  /\ callbacks evs = [(base64Data dataUrl, JNull)]
  /\ out' = Returns tt
  /\ callbacks evs' = [(base64Data dataUrl, JNull)]
  /\ App.currentAnalysis
       (App.handleRecordingComplete app (base64Data dataUrl) JNull) = JNull
  /\ App.currentAudioData
       (App.handleRecordingComplete app (base64Data dataUrl) JNull)
     = base64Data dataUrl.
Proof.
  unfold onstop, onstop_earlier.
  rewrite analyze_and_report_rejected.
  repeat split.
  - rewrite !callbacks_app, callbacks_cancel_frame. reflexivity.
Qed.

(** C8. When the microphone cannot be acquired, [startRecording] logs the
    error and stops there: the state is unchanged (so [isRecording] keeps
    its value, false when idle), no recorder is started and the callback
    is not called. *)
Theorem startRecording_acquisition_failure (st : state) (err : string)
  (handle : N) :
  let '(st', evs) := startRecording st (Rejected err) handle in
  st' = st
  /\ isRecording st' = isRecording st
  /\ evs = [GetUserMedia; ConsoleError "Failed to start recording:" err]
  /\ callbacks evs = []
  /\ occurrences is_recorder_start evs = 0%nat
  /\ isRecording (fst (startRecording initial (Rejected err) handle)) = false.
Proof. repeat split. Qed.

(** C7, as stated, fails: the tracks of the stream are stopped at the end
    of the handler, after the classification request and the callback. *)
Lemma release_follows_classification :
  let '(_, evs, _) :=
    stopRecording recording_state [Byte.x49]
      (Resolved "data:audio/wav;base64,Ukk=") (Resolved "{}") in
  released_and_encoded_first evs = false
  /\ before is_classification is_release evs = true.
Proof. vm_compute. split; reflexivity. Qed.

(** C7, amended. On a stop whose audio the file reader encodes, the blob
    is built and encoded before the classification request, the callback
    follows the request, and the microphone is released after the
    callback, at the end of the handler, which returns normally. *)
Theorem stop_order (st : state) (last : blob) (dataUrl : string)
  (reply : answer string) :
  mediaRecorderRef st = Some Recording ->
  isRecording st = true ->
  let '(st', evs, out) := stopRecording st last (Resolved dataUrl) reply in
  let '(st2, evs2, out2) :=
    stopRecording_earlier st last (Resolved dataUrl) reply in
  (before is_blob is_encoding evs = true
   /\ before is_encoding is_classification evs = true
   /\ before is_classification is_callback evs = true
   /\ before is_callback is_release evs = true
   /\ microphone st' = false /\ out = Returns tt)
  /\ (before is_blob is_encoding evs2 = true
      /\ before is_encoding is_classification evs2 = true
      /\ before is_classification is_callback evs2 = true
      /\ before is_callback is_release evs2 = true
      /\ microphone st2 = false /\ out2 = Returns tt).
Proof.
  intros Hrec Hflag.
  unfold stopRecording, stopRecording_earlier, onstop, onstop_earlier,
    ondataavailable, analyze_and_report, analyzeAudio.
  rewrite Hrec, Hflag. cbn [animationFrameRef audioChunksRef microphone].
  destruct (animationFrameRef st) as [h |]; [destruct (h =? 0)%N eqn:Hh |];
    (destruct reply as [text | err]; [destruct (JSON_parse text) |]);
    cbn [cancel_frame]; try rewrite Hh; cbn; repeat split; reflexivity.
Qed.

Lemma stop_order_witness :
  mediaRecorderRef recording_state = Some Recording
  /\ isRecording recording_state = true
  /\ let '(st', evs, out) :=
       stopRecording recording_state [Byte.x49]
         (Resolved "data:audio/wav;base64,Ukk=") (Rejected "network") in
     let '(st2, evs2, out2) :=
       stopRecording_earlier recording_state [Byte.x49]
         (Resolved "data:audio/wav;base64,Ukk=") (Rejected "network") in
     (before is_blob is_encoding evs = true
      /\ before is_encoding is_classification evs = true
      /\ before is_classification is_callback evs = true
      /\ before is_callback is_release evs = true
      /\ microphone st' = false /\ out = Returns tt)
     /\ (before is_blob is_encoding evs2 = true
         /\ before is_encoding is_classification evs2 = true
         /\ before is_classification is_callback evs2 = true
         /\ before is_callback is_release evs2 = true
         /\ microphone st2 = false /\ out2 = Returns tt).
Proof.
  split; [reflexivity |]. split; [reflexivity |].
  exact (stop_order recording_state [Byte.x49] "data:audio/wav;base64,Ukk="
           (Rejected "network") eq_refl eq_refl).
Defined.

End RecorderProperties.

(** ** The recording store *)

Section StoreLists.
Import Js Store System.

Lemma key_inj (u v : string) : key u = key v -> u = v.
Proof. unfold key. simpl. intros H. now inversion H. Qed.

Lemma local_list_setItem (u : string) (rs : list Recording) (w : World) :
  local_list (setItem u rs w) u = rs.
Proof. unfold local_list, setItem. simpl. now rewrite lookup_insert_eq. Qed.

Lemma local_list_setItem_other (u v : string) (rs : list Recording)
  (w : World) :
  u <> v -> local_list (setItem u rs w) v = local_list w v.
Proof.
  intros Hne. unfold local_list, setItem. simpl.
  rewrite lookup_insert_ne; [reflexivity |].
  intros Hk. apply Hne. now apply key_inj.
Qed.

Lemma table_setItem (u : string) (rs : list Recording) (w : World) :
  table (setItem u rs w) = table w.
Proof. reflexivity. Qed.

(** [splice(50)] under its length test keeps the first 50. *)
Lemma splice_50 (rs : list Recording) :
  (if (50 <? List.length rs)%nat then firstn 50 rs else rs) = firstn 50 rs.
Proof.
  destruct (Nat.ltb_spec 50 (List.length rs)); [reflexivity |].
  symmetry. apply firstn_all2. lia.
Qed.

Lemma save_local_readable (r : Recording) (u : string) (w : World) :
  slot_readable w u = true ->
  App.save_local r u w = Some (setItem u (firstn 50 (r :: local_list w u)) w).
Proof.
  unfold slot_readable, App.save_local, local_list.
  destruct (localStorage w !! key u) as [[| rs | |] |];
    intros H; try discriminate H; now rewrite splice_50.
Qed.

Lemma save_local_unreadable (r : Recording) (u : string) (w : World) :
  slot_readable w u = false -> App.save_local r u w = None.
Proof.
  unfold slot_readable, App.save_local.
  destruct (localStorage w !! key u) as [[| rs | |] |];
    intros H; try discriminate H; reflexivity.
Qed.

Lemma slot_readable_setItem (u v : string) (rs : list Recording) (w : World) :
  slot_readable w v = true -> slot_readable (setItem u rs w) v = true.
Proof.
  unfold slot_readable, setItem. simpl. intros H.
  destruct (decide (key u = key v)) as [E | E].
  - rewrite E, lookup_insert_eq. reflexivity.
  - now rewrite lookup_insert_ne.
Qed.

Lemma firstn_app_firstn (n : nat) (xs ys : list Recording) :
  firstn n (xs ++ firstn n ys) = firstn n (xs ++ ys).
Proof.
  rewrite !firstn_app, firstn_firstn. f_equal. f_equal. lia.
Qed.

Lemma forallb_firstn {A : Type} (p : A -> bool) (n : nat) (l : list A) :
  forallb p l = true -> forallb p (firstn n l) = true.
Proof.
  revert n. induction l as [| x l IH]; intros [| n] H; try reflexivity.
  simpl in *. apply andb_prop in H as [Hx Hl]. now rewrite Hx, IH.
Qed.

(** Identifiers in lists. *)








(** Ordering by creation time. *)

Lemma ltb_asym (a b : string) : String.ltb a b = true -> String.ltb b a = false.
Proof.
  unfold String.ltb. rewrite (String.compare_antisym b a).
  now destruct (String.compare a b).
Qed.

Lemma insert_desc_head (r : Recording) (rs : list Recording) :
  exists rest, insert_desc r rs = r :: rest
               \/ (exists x tl, rs = x :: tl /\ insert_desc r rs = x :: rest
                                /\ String.ltb (createdAt x) (createdAt r) = false).
Proof.
  destruct rs as [| x tl]; simpl.
  - exists []. now left.
  - destruct (String.ltb (createdAt x) (createdAt r)) eqn:E.
    + exists (x :: tl). now left.
    + exists (insert_desc r tl). right. now exists x, tl.
Qed.

Lemma insert_desc_newest_first (r : Recording) (rs : list Recording) :
  newest_first rs = true -> newest_first (insert_desc r rs) = true.
Proof.
  induction rs as [| x rs IH]; [reflexivity |].
  intros H. simpl insert_desc.
  destruct (String.ltb (createdAt x) (createdAt r)) eqn:E.
  - change (negb (String.ltb (createdAt r) (createdAt x))
            && newest_first (x :: rs) = true).
    now rewrite (ltb_asym _ _ E), H.
  - simpl in H. apply andb_prop in H as [Hx Hr]. specialize (IH Hr).
    destruct (insert_desc_head r rs) as [rest [Hd | (y & tl & Hrs & Hd & _)]].
    + rewrite Hd in IH |- *.
      change (negb (String.ltb (createdAt x) (createdAt r))
              && newest_first (r :: rest) = true).
      now rewrite E, IH.
    + rewrite Hd in IH |- *. subst rs.
      change (negb (String.ltb (createdAt x) (createdAt y))
              && newest_first (y :: rest) = true).
      now rewrite Hx, IH.
Qed.

Lemma order_desc_newest_first (rs : list Recording) :
  newest_first (order_desc rs) = true.
Proof.
  induction rs as [| x rs IH]; [reflexivity |].
  unfold order_desc in *. simpl. now apply insert_desc_newest_first.
Qed.

Lemma newest_first_firstn (n : nat) (rs : list Recording) :
  newest_first rs = true -> newest_first (firstn n rs) = true.
Proof.
  revert n. induction rs as [| x rs IH]; intros [| n] H; try reflexivity.
  simpl in H. apply andb_prop in H as [Hx Hr].
  specialize (IH n Hr).
  destruct rs as [| y rs]; [now destruct n |].
  destruct n as [| n]; [reflexivity |].
  change (negb (String.ltb (createdAt x) (createdAt y))
          && newest_first (firstn (S n) (y :: rs)) = true).
  now rewrite Hx, IH.
Qed.

(** The remote list is ordered most-recent-first and holds at most 20. *)
Lemma db_list_newest_first (u : string) (t : list Recording) :
  newest_first (db_list u t) = true.
Proof. apply newest_first_firstn, order_desc_newest_first. Qed.

Lemma db_list_length (u : string) (t : list Recording) :
  (List.length (db_list u t) <= 20)%nat.
Proof. unfold db_list. rewrite length_firstn. lia. Qed.

Lemma order_desc_latest (r : Recording) (rs : list Recording) :
  forallb (fun x => String.ltb (createdAt x) (createdAt r)) rs = true ->
  order_desc (rs ++ [r]) = r :: order_desc rs.
Proof.
  induction rs as [| x rs IH]; [reflexivity |].
  simpl. intros H. apply andb_prop in H as [Hx Hr].
  unfold order_desc in *. simpl. rewrite (IH Hr). simpl.
  now rewrite (ltb_asym _ _ Hx).
Qed.

Lemma db_list_after_create (r : Recording) (t : list Recording) :
  later_than_all r (userId r) t = true ->
  db_list (userId r) (db_create r t)
  = r :: firstn 19 (db_list (userId r) t).
Proof.
  intros H. unfold db_list, db_create, later_than_all in *.
  rewrite List.filter_app. simpl. unfold owned_by at 2.
  rewrite String.eqb_refl, (order_desc_latest _ _ H).
  simpl. now rewrite firstn_firstn.
Qed.

End StoreLists.

Section StoreProperties.
Import Js Store System Sample.

Lemma save_request_local (st : App.state) (w : World) (usr : User)
  (q : request) :
  App.user st = Some usr ->
  slot_readable w (user_id usr) = true ->
  savable q = true ->
  req_remote_up q = false ->
  save_request (st, w) q
  = (App.clear (App.handleRecordingComplete st (req_audio q) (req_analysis q)),
     setItem (user_id usr)
       (firstn 50 (recording_of usr q :: local_list w (user_id usr))) w).
Proof.
  intros Hu Hslot Hq Hup.
  unfold save_request, App.handleSaveRecording, savable, recording_of in *.
  cbn [fst snd App.handleRecordingComplete App.user App.currentAudioData
       App.currentAnalysis].
  rewrite Hu, Hup.
  destruct (req_audio q) as [audio |];
    [| now rewrite andb_false_r in Hq].
  rewrite Hq, (save_local_readable _ _ _ Hslot). reflexivity.
Qed.

Lemma save_request_remote (st : App.state) (w : World) (usr : User)
  (q : request) :
  App.user st = Some usr ->
  savable q = true ->
  req_remote_up q = true ->
  save_request (st, w) q
  = (App.clear (App.handleRecordingComplete st (req_audio q) (req_analysis q)),
     {| table := db_create (recording_of usr q) (table w);
        localStorage := localStorage w |}).
Proof.
  intros Hu Hq Hup.
  unfold save_request, App.handleSaveRecording, savable, recording_of in *.
  cbn [fst snd App.handleRecordingComplete App.user App.currentAudioData
       App.currentAnalysis].
  rewrite Hu, Hup.
  destruct (req_audio q) as [audio |];
    [| now rewrite andb_false_r in Hq].
  now rewrite Hq.
Qed.

Lemma handleSaveRecording_user (st : App.state) (c : App.clock) (up : bool)
  (w : World) :
  App.user (fst (fst (App.handleSaveRecording st c up w))) = App.user st.
Proof.
  unfold App.handleSaveRecording.
  destruct (App.user st) as [u |] eqn:Hu; [| exact Hu].
  destruct (App.currentAudioData st) as [audio |]; [| exact Hu].
  destruct (truthy_json (App.currentAnalysis st) && truthy_string audio);
    [| exact Hu].
  destruct up; [exact Hu |].
  destruct (App.save_local _ _ w); exact Hu.
Qed.

(** What a save does to the local list of any user [u]: nothing, or a
    new head on the list of the saving user, cut at 50. *)
Lemma handleSaveRecording_local_list (st : App.state) (c : App.clock)
  (up : bool) (w : World) (u : string) :
  let w' := snd (fst (App.handleSaveRecording st c up w)) in
  local_list w' u = local_list w u
  \/ exists r, id r = App.new_id c
               /\ local_list w' u = firstn 50 (r :: local_list w u).
Proof.
  unfold App.handleSaveRecording.
  destruct (App.user st) as [usr |]; [| now left].
  destruct (App.currentAudioData st) as [audio |]; [| now left].
  destruct (truthy_json (App.currentAnalysis st) && truthy_string audio);
    [| now left].
  destruct up; [now left |].
  destruct (slot_readable w (user_id usr)) eqn:Hslot.
  - rewrite (save_local_readable _ _ _ Hslot). cbn [fst snd].
    destruct (decide (user_id usr = u)) as [<- | Hne].
    + right. eexists. split; [| apply local_list_setItem]. reflexivity.
    + left. now apply local_list_setItem_other.
  - rewrite (save_local_unreadable _ _ _ Hslot). now left.
Qed.


Lemma save_request_capped (s : App.state * World) (q : request) (u : string) :
  (List.length (local_list (snd s) u) <= 50)%nat ->
  (List.length (local_list (snd (save_request s q)) u) <= 50)%nat.
Proof.
  intros H. unfold save_request.
  pose proof (handleSaveRecording_local_list
                (App.handleRecordingComplete (fst s) (req_audio q)
                   (req_analysis q))
                (req_clock q) (req_remote_up q) (snd s) u) as Hl.
  destruct (App.handleSaveRecording _ _ _ _) as [[st' w'] lg].
  cbn [fst snd] in *.
  destruct Hl as [-> | (r & _ & ->)]; [exact H |].
  rewrite length_firstn. lia.
Qed.

(** C2. Whatever the local list of a user holds at most 50 entries
    before, it holds at most 50 entries after any number of saves,
    whichever of them fall back to local storage. *)
Theorem local_list_capped (qs : list request) (st : App.state) (w : World)
  (u : string) :
  (List.length (local_list w u) <= 50)%nat ->
  (List.length (local_list (snd (save_all qs st w)) u) <= 50)%nat.
Proof.
  unfold save_all.
  change w with (snd (st, w)) at 1.
  generalize (st, w). clear st w.
  induction qs as [| q qs IH]; intros s H; [exact H |].
  simpl. apply IH. now apply save_request_capped.
Qed.

Lemma local_list_capped_witness :
  (List.length (local_list empty_world "user_1") <= 50)%nat
  /\ (List.length
        (local_list (snd (save_all fifty_one signed_in empty_world)) "user_1")
      <= 50)%nat.
Proof.
  split; [vm_compute; lia |].
  apply (local_list_capped fifty_one signed_in empty_world "user_1").
  vm_compute; lia.
Defined.

(** Saves that all fall back, for one user whose slot can be read: the
    new recordings pile up in front of the list, which is cut at 50. *)
Lemma local_saves (qs : list request) (st : App.state) (w : World)
  (usr : User) :
  App.user st = Some usr ->
  slot_readable w (user_id usr) = true ->
  (List.length (local_list w (user_id usr)) <= 50)%nat ->
  forallb savable qs = true ->
  forallb (fun q => negb (req_remote_up q)) qs = true ->
  local_list (snd (save_all qs st w)) (user_id usr)
  = firstn 50 (rev (map (recording_of usr) qs)
                 ++ local_list w (user_id usr)).
Proof.
  unfold save_all. revert st w.
  induction qs as [| q qs IH]; intros st w Hu Hslot Hlen Hq Hup.
  - simpl. symmetry. now apply firstn_all2.
  - simpl in Hq, Hup |- *.
    apply andb_prop in Hq as [Hq Hqs]. apply andb_prop in Hup as [Hup Hups].
    apply negb_true_iff in Hup.
    rewrite (save_request_local st w usr q Hu Hslot Hq Hup).
    rewrite IH; try assumption.
    + rewrite local_list_setItem, firstn_app_firstn.
      cbn [map rev]. now rewrite <- app_assoc.
    + now apply slot_readable_setItem.
    + rewrite local_list_setItem, length_firstn. lia.
Qed.

(** C3. Fifty-one saves for one user, all falling back to a local
    storage that had no list for that user: after the first fifty the
    list holds all fifty, the first-saved one last; after the fifty-first
    it holds exactly 50, the recordings of saves 2 to 51 with the latest
    first, and the first-saved one is the one that is gone. *)
Theorem fifty_one_local_saves (qs : list request) (st : App.state)
  (w : World) (usr : User) :
  App.user st = Some usr ->
  localStorage w !! key (user_id usr) = None ->
  List.length qs = 51%nat ->
  forallb savable qs = true ->
  forallb (fun q => negb (req_remote_up q)) qs = true ->
  let l := local_list (snd (save_all qs st w)) (user_id usr) in
  List.length l = 50%nat
  /\ l = rev (map (recording_of usr) (tl qs))
  /\ local_list (snd (save_all (firstn 50 qs) st w)) (user_id usr)
     = rev (map (recording_of usr) (firstn 50 qs)).
Proof.
  intros Hu Hnone Hlen Hq Hup l.
  assert (Hslot : slot_readable w (user_id usr) = true)
    by (unfold slot_readable; now rewrite Hnone).
  assert (Hnil : local_list w (user_id usr) = [])
    by (unfold local_list; now rewrite Hnone).
  assert (Hl : l = rev (map (recording_of usr) (tl qs))).
  { subst l. rewrite (local_saves qs st w usr Hu Hslot); try assumption;
      [| rewrite Hnil; simpl; lia].
    rewrite Hnil, app_nil_r.
    destruct qs as [| q1 rest]; [discriminate Hlen |].
    simpl. rewrite firstn_app.
    replace (50 - List.length (rev (map (recording_of usr) rest)))%nat
      with 0%nat
      by (rewrite length_rev, length_map; simpl in Hlen; lia).
    simpl. rewrite app_nil_r. apply firstn_all2.
    rewrite length_rev, length_map. simpl in Hlen. lia. }
  split; [| split; [exact Hl |]].
  - rewrite Hl, length_rev, length_map.
    destruct qs; [discriminate Hlen |]. simpl in *. lia.
  - rewrite (local_saves (firstn 50 qs) st w usr Hu Hslot).
    + rewrite Hnil, app_nil_r. apply firstn_all2.
      rewrite length_rev, length_map, length_firstn. lia.
    + rewrite Hnil. simpl. lia.
    + now apply forallb_firstn.
    + now apply forallb_firstn.
Qed.

Lemma fifty_one_local_saves_witness :
  App.user signed_in = Some alice
  /\ localStorage empty_world !! key (user_id alice) = None
  /\ List.length fifty_one = 51%nat
  /\ forallb savable fifty_one = true
  /\ forallb (fun q => negb (req_remote_up q)) fifty_one = true
  /\ let l :=
       local_list (snd (save_all fifty_one signed_in empty_world))
         (user_id alice) in
     List.length l = 50%nat
     /\ l = rev (map (recording_of alice) (tl fifty_one))
     /\ local_list (snd (save_all (firstn 50 fifty_one) signed_in empty_world))
          (user_id alice)
        = rev (map (recording_of alice) (firstn 50 fifty_one)).
Proof.
  do 5 (split; [vm_compute; reflexivity |]).
  apply (fifty_one_local_saves fifty_one signed_in empty_world alice);
    vm_compute; reflexivity.
Defined.

Lemma loadRecordings_local (h : History.state) (u : string) (w : World) :
  History.recordings (fst (History.loadRecordings h u false w))
  = local_list w u.
Proof.
  unfold History.loadRecordings, local_list.
  destruct (localStorage w !! key u) as [[| rs | |] |]; reflexivity.
Qed.

Lemma loadRecordings_remote (h : History.state) (u : string) (w : World) :
  History.recordings (fst (History.loadRecordings h u true w))
  = db_list u (table w).
Proof. reflexivity. Qed.


Lemma newest_first_implb (n : nat) (rs : list Recording) :
  implb (newest_first rs) (newest_first (firstn n rs)) = true.
Proof.
  destruct (newest_first rs) eqn:E; [| reflexivity].
  simpl. now apply newest_first_firstn.
Qed.

(** Where the remote listing puts a row that was just created. *)

Lemma ltb_trans (a b c : string) :
  String.ltb a b = true -> String.ltb b c = true -> String.ltb a c = true.
Proof.
  unfold String.ltb.
  change String.compare with OrderedTypeEx.String_as_OT.cmp.
  destruct (OrderedTypeEx.String_as_OT.cmp a b) eqn:E1; try discriminate.
  destruct (OrderedTypeEx.String_as_OT.cmp b c) eqn:E2; try discriminate.
  intros _ _.
  apply OrderedTypeEx.String_as_OT.cmp_lt in E1, E2.
  pose proof (OrderedTypeEx.String_as_OT.lt_trans _ _ _ E1 E2) as E3.
  apply OrderedTypeEx.String_as_OT.cmp_lt in E3. now rewrite E3.
Qed.

Lemma insert_desc_before (r x : Recording) (A B : list Recording) :
  String.ltb (createdAt r) (createdAt x) = true ->
  forallb (fun a => String.ltb (createdAt r) (createdAt a)) A = true ->
  exists A',
    insert_desc x (A ++ r :: B) = A' ++ r :: B
    /\ List.length A' = S (List.length A)
    /\ forallb (fun a => String.ltb (createdAt r) (createdAt a)) A' = true.
Proof.
  intros Hx. induction A as [| a A IH]; intros HA.
  - exists [x]. simpl. now rewrite Hx.
  - simpl in HA. apply andb_prop in HA as [Ha HA]. simpl.
    destruct (String.ltb (createdAt a) (createdAt x)).
    + exists (x :: a :: A). simpl. now rewrite Hx, Ha, HA.
    + destruct (IH HA) as (A' & E & Hl & Hf). exists (a :: A').
      simpl. now rewrite E, Hl, Ha, Hf.
Qed.

Lemma insert_desc_after (r x : Recording) (A B : list Recording) :
  String.ltb (createdAt r) (createdAt x) = false ->
  forallb (fun a => String.ltb (createdAt r) (createdAt a)) A = true ->
  insert_desc x (A ++ r :: B) = A ++ r :: insert_desc x B.
Proof.
  intros Hx. induction A as [| a A IH]; intros HA.
  - simpl. now rewrite Hx.
  - simpl in HA. apply andb_prop in HA as [Ha HA]. simpl.
    destruct (String.ltb (createdAt a) (createdAt x)) eqn:Hax.
    + now rewrite (ltb_trans _ _ _ Ha Hax) in Hx.
    + now rewrite (IH HA).
Qed.

Lemma order_desc_place (r : Recording) (rs : list Recording) :
  exists A B,
    order_desc (rs ++ [r]) = A ++ r :: B
    /\ forallb (fun a => String.ltb (createdAt r) (createdAt a)) A = true
    /\ (List.length A
        <= List.length
             (List.filter
                (fun x => negb (String.ltb (createdAt x) (createdAt r))) rs))%nat.
Proof.
  unfold order_desc. rewrite fold_right_app. simpl fold_right at 2.
  induction rs as [| x rs (A & B & E & HA & Hl)].
  - exists [], []. simpl. repeat split. lia.
  - simpl fold_right. rewrite E.
    destruct (String.ltb (createdAt r) (createdAt x)) eqn:Hx.
    + destruct (insert_desc_before r x A B Hx HA) as (A' & E' & Hl' & HA').
      exists A', B. rewrite E'. repeat split; [exact HA' |].
      simpl. rewrite (ltb_asym _ _ Hx). simpl. lia.
    + exists A, (insert_desc x B).
      rewrite (insert_desc_after r x A B Hx HA). repeat split; [exact HA |].
      simpl. destruct (negb _); simpl; lia.
Qed.

Lemma db_list_lists_created (r : Recording) (t : list Recording) :
  (List.length (rivals r (userId r) t) < 20)%nat ->
  In r (db_list (userId r) (db_create r t)).
Proof.
  unfold rivals, db_list, db_create. intros H.
  rewrite List.filter_app. simpl. unfold owned_by at 2.
  rewrite String.eqb_refl.
  destruct (order_desc_place r (List.filter (owned_by (userId r)) t))
    as (A & B & -> & _ & Hl).
  rewrite firstn_app. apply in_or_app. right.
  destruct (20 - List.length A)%nat as [| n] eqn:E; [lia |].
  simpl. now left.
Qed.

(** C1, as stated, fails. With twenty later rows of the user in the
    table, a save that the database served puts the row in the table but
    the listing of the database, limited to the twenty latest, does not
    return it; and a recording saved in the database is not returned by a
    listing that falls back to the local storage. *)
Lemma save_then_list_not_always :
  (let r :=
     App.newRecording (clock_at 3) alice (App.currentAnalysis ready)
       "UklGRg==" in
   let w' :=
     snd (fst (App.handleSaveRecording ready (clock_at 3) true crowded_world))
   in
   let listed :=
     History.recordings
       (fst (History.loadRecordings History.initial (user_id alice) true w'))
   in
   In r (table w') /\ mentions (id r) listed = false
   /\ List.length listed = 20%nat)
  /\ (let r :=
        App.newRecording (clock_at 3) alice (App.currentAnalysis ready)
          "UklGRg==" in
      let w' :=
        snd (fst (App.handleSaveRecording ready (clock_at 3) true empty_world))
      in
      In r (table w')
      /\ History.recordings
           (fst (History.loadRecordings History.initial (user_id alice) false
                   w'))
         = []).
Proof.
  split.
  - split; [| split; vm_compute; reflexivity].
    vm_compute. do 20 right. left. reflexivity.
  - split; [| vm_compute; reflexivity]. vm_compute. left. reflexivity.
Qed.

(** C1, amended. A save followed by a listing for the same user, both
    served by the same store. Served by the local fallback (the slot
    being readable), the listing is the saved recording followed by what
    the listing returned before, cut at 50. Served by the database, the
    listing is ordered by creation time, latest first, and holds the
    saved recording when fewer than 20 rows of the user are not earlier
    than it; when all rows of the user are earlier, it is the saved
    recording followed by what the listing returned before, cut at 20. *)
Theorem save_then_list (st : App.state) (c : App.clock) (up : bool)
  (w : World) (h : History.state) (usr : User) (audio : string) :
  App.user st = Some usr ->
  App.currentAudioData st = Some audio ->
  truthy_json (App.currentAnalysis st) = true ->
  truthy_string audio = true ->
  (if up
   then (List.length
           (rivals (App.newRecording c usr (App.currentAnalysis st) audio)
              (user_id usr) (table w)) <? 20)%nat
   else slot_readable w (user_id usr)) = true ->
  let r := App.newRecording c usr (App.currentAnalysis st) audio in
  let w' := snd (fst (App.handleSaveRecording st c up w)) in
  let listed_before :=
    History.recordings (fst (History.loadRecordings h (user_id usr) up w)) in
  let listed :=
    History.recordings (fst (History.loadRecordings h (user_id usr) up w')) in
  In r listed
  /\ (if up then newest_first listed else true) = true
  /\ ((if up then later_than_all r (user_id usr) (table w) else true) = true ->
      listed = r :: firstn (if up then 19 else 49) listed_before
      /\ hd_error listed = Some r
      /\ implb (newest_first (r :: listed_before)) (newest_first listed)
         = true).
Proof.
  intros Hu Ha Han Hau Hstore r w' listed_before listed.
  assert (Hw : w' = if up
                    then {| table := db_create r (table w);
                            localStorage := localStorage w |}
                    else setItem (user_id usr)
                           (firstn 50 (r :: local_list w (user_id usr))) w).
  { subst w'. unfold App.handleSaveRecording.
    rewrite Hu, Ha, Han, Hau. simpl andb. cbv iota.
    destruct up; [reflexivity |].
    now rewrite (save_local_readable _ _ _ Hstore). }
  assert (Hhead :
            (if up then later_than_all r (user_id usr) (table w) else true)
            = true ->
            listed = r :: firstn (if up then 19 else 49) listed_before).
  { intros Hlate. subst listed listed_before. rewrite Hw. destruct up.
    - rewrite !loadRecordings_remote. cbn [table].
      apply (db_list_after_create r). exact Hlate.
    - rewrite !loadRecordings_local, local_list_setItem. reflexivity. }
  split; [| split].
  - subst listed. rewrite Hw. destruct up.
    + rewrite loadRecordings_remote. cbn [table].
      apply (db_list_lists_created r). now apply Nat.ltb_lt.
    + rewrite loadRecordings_local, local_list_setItem. now left.
  - destruct up; [| reflexivity]. subst listed.
    rewrite loadRecordings_remote. apply db_list_newest_first.
  - intros Hlate. specialize (Hhead Hlate).
    split; [exact Hhead |]. split; [now rewrite Hhead |].
    rewrite Hhead.
    change (r :: firstn (if up then 19 else 49) listed_before)
      with (firstn (S (if up then 19 else 49)) (r :: listed_before)).
    apply newest_first_implb.
Qed.

Lemma save_then_list_witness :
  App.user ready = Some alice
  /\ App.currentAudioData ready = Some "UklGRg=="
  /\ truthy_json (App.currentAnalysis ready) = true
  /\ truthy_string "UklGRg==" = true
  /\ (List.length
        (rivals
           (App.newRecording (clock_at 3) alice (App.currentAnalysis ready)
              "UklGRg==")
           (user_id alice) (table remote_world)) <? 20)%nat = true
  /\ slot_readable local_world (user_id alice) = true
  /\ (let r :=
         App.newRecording (clock_at 3) alice (App.currentAnalysis ready)
           "UklGRg==" in
       let w' :=
         snd (fst (App.handleSaveRecording ready (clock_at 3) true
                     remote_world)) in
       let listed_before :=
         History.recordings
           (fst (History.loadRecordings History.initial (user_id alice) true
                   remote_world)) in
       let listed :=
         History.recordings
           (fst (History.loadRecordings History.initial (user_id alice) true
                   w')) in
       In r listed
       /\ newest_first listed = true
       /\ (later_than_all r (user_id alice) (table remote_world) = true ->
           listed = r :: firstn 19 listed_before
           /\ hd_error listed = Some r
           /\ implb (newest_first (r :: listed_before)) (newest_first listed)
              = true))
  /\ (let r :=
         App.newRecording (clock_at 3) alice (App.currentAnalysis ready)
           "UklGRg==" in
       let w' :=
         snd (fst (App.handleSaveRecording ready (clock_at 3) false
                     local_world)) in
       let listed_before :=
         History.recordings
           (fst (History.loadRecordings History.initial (user_id alice) false
                   local_world)) in
       let listed :=
         History.recordings
           (fst (History.loadRecordings History.initial (user_id alice) false
                   w')) in
       In r listed
       /\ true = true
       /\ (true = true ->
           listed = r :: firstn 49 listed_before
           /\ hd_error listed = Some r
           /\ implb (newest_first (r :: listed_before)) (newest_first listed)
              = true)).
Proof.
  do 6 (split; [vm_compute; reflexivity |]).
  split.
  - exact (save_then_list ready (clock_at 3) true remote_world
             History.initial alice "UklGRg==" eq_refl eq_refl eq_refl eq_refl
             eq_refl).
  - exact (save_then_list ready (clock_at 3) false local_world
             History.initial alice "UklGRg==" eq_refl eq_refl eq_refl eq_refl
             eq_refl).
Defined.

(** The two stores are never reconciled: a recording saved remotely is
    not in the local list, and one saved locally is not in the table. *)
Lemma save_leaves_other_store (st : App.state) (c : App.clock) (up : bool)
  (w : World) (u : string) :
  let w' := snd (fst (App.handleSaveRecording st c up w)) in
  if up then local_list w' u = local_list w u else table w' = table w.
Proof.
  unfold App.handleSaveRecording.
  destruct (App.user st) as [usr |]; [| now destruct up].
  destruct (App.currentAudioData st) as [audio |]; [| now destruct up].
  destruct (truthy_json (App.currentAnalysis st) && truthy_string audio);
    [| now destruct up].
  destruct up; [reflexivity |].
  destruct (App.save_local _ (user_id usr) w) as [w1 |] eqn:E; [| reflexivity].
  unfold App.save_local in E.
  destruct (localStorage w !! key (user_id usr)) as [[| rs | |] |];
    inversion E; reflexivity.
Qed.

(** Deleting. *)

Lemma delete_local_list (h : History.state) (i : string) (w : World)
  (shown : User) :
  History.user h = Some shown ->
  local_list (History.delete_local h i w) (user_id shown)
  = without i (History.recordings h).
Proof.
  intros Hu. unfold History.delete_local. rewrite Hu.
  apply local_list_setItem.
Qed.


Lemma delete_local_table (h : History.state) (i : string) (w : World) :
  table (History.delete_local h i w) = table w.
Proof. unfold History.delete_local. now destruct (History.user h). Qed.







(** Two deletions that overlap, both falling back: each writes the slot
    from the list of the render its click came from, so the second puts
    the recording the first one deleted back into the slot, while the
    screen shows neither. *)
Lemma overlapping_deletions_restore :
  let seen := shown false local_world in
  let '(st1, w1) :=
    Overlap.deleteRecording_from seen seen (id (recording_at 1)) false
      local_world in
  let '(st2, w2) :=
    Overlap.deleteRecording_from seen st1 (id (recording_at 2)) false w1 in
  History.recordings st2 = []
  /\ local_list w1 (user_id alice) = [recording_at 2]
  /\ local_list w2 (user_id alice) = [recording_at 1].
Proof. vm_compute. repeat split; reflexivity. Qed.

Lemma deleteRecording_from_current (st : History.state) (i : string)
  (up : bool) (w : World) :
  Overlap.deleteRecording_from st st i up w = History.deleteRecording st i up w.
Proof. reflexivity. Qed.



(** C10. When a deletion works on local storage (the component is in
    local mode, or the remote call failed), the local list of the user
    becomes the list the component shows without the deleted identifier,
    whatever the slot held; the remote table is untouched; a list shown
    after a remote listing has at most 20 entries; and an entry of the
    old local list that the component does not show is not in the new
    one. *)
Theorem delete_replaces_local_list (h : History.state) (i : string)
  (up : bool) (w : World) (usr : User) :
  History.user h = Some usr ->
  History.usingLocalStorage h || negb up = true ->
  let w' := snd (History.deleteRecording h i up w) in
  localStorage w' !! key (user_id usr)
  = Some (JsonArray (without i (History.recordings h)))
  /\ local_list w' (user_id usr) = without i (History.recordings h)
  /\ table w' = table w
  /\ (forall (h0 : History.state) (u0 : string) (w0 : World),
        (List.length
           (History.recordings (fst (History.loadRecordings h0 u0 true w0)))
         <= 20)%nat)
  /\ (forall r : Recording,
        In r (local_list w (user_id usr)) ->
        ~ In r (History.recordings h) ->
        ~ In r (local_list w' (user_id usr))).
Proof.
  intros Hu Hmode w'.
  assert (Hw : w' = History.delete_local h i w).
  { subst w'. unfold History.deleteRecording. cbn [snd].
    destruct (History.usingLocalStorage h); [reflexivity |].
    simpl in Hmode. apply negb_true_iff in Hmode. now rewrite Hmode. }
  assert (Hl : local_list w' (user_id usr) = without i (History.recordings h))
    by (rewrite Hw; now apply delete_local_list).
  repeat split.
  - rewrite Hw. unfold History.delete_local. rewrite Hu.
    unfold setItem. cbn [localStorage]. apply lookup_insert_eq.
  - exact Hl.
  - rewrite Hw. apply delete_local_table.
  - intros h0 u0 w0. rewrite loadRecordings_remote. apply db_list_length.
  - intros r _ Hshown Hin. rewrite Hl in Hin. apply Hshown.
    unfold without in Hin. now apply filter_In in Hin as [Hin _].
Qed.

Lemma delete_replaces_local_list_witness :
  History.user (shown true mixed_world) = Some alice
  /\ History.usingLocalStorage (shown true mixed_world) || negb false = true
  /\ local_list mixed_world (user_id alice) = [recording_at 3]
  /\ local_list
       (snd (History.deleteRecording (shown true mixed_world)
               (id (recording_at 1)) false mixed_world))
       (user_id alice)
     = [recording_at 2]
  /\ let w' :=
       snd (History.deleteRecording (shown true mixed_world)
              (id (recording_at 1)) false mixed_world) in
     localStorage w' !! key (user_id alice)
     = Some (JsonArray (without (id (recording_at 1))
                          (History.recordings (shown true mixed_world))))
     /\ local_list w' (user_id alice)
        = without (id (recording_at 1))
            (History.recordings (shown true mixed_world))
     /\ table w' = table mixed_world
     /\ (forall (h0 : History.state) (u0 : string) (w0 : World),
           (List.length
              (History.recordings
                 (fst (History.loadRecordings h0 u0 true w0)))
            <= 20)%nat)
     /\ (forall r : Recording,
           In r (local_list mixed_world (user_id alice)) ->
           ~ In r (History.recordings (shown true mixed_world)) ->
           ~ In r (local_list w' (user_id alice))).
Proof.
  do 4 (split; [vm_compute; reflexivity |]).
  exact (delete_replaces_local_list (shown true mixed_world)
           (id (recording_at 1)) false mixed_world alice eq_refl eq_refl).
Defined.

(** Reachable states. *)

Lemma without_length (i : string) (rs : list Recording) :
  (List.length (without i rs) <= List.length rs)%nat.
Proof. apply filter_length_le. Qed.

Lemma handleSaveRecording_readable (st : App.state) (c : App.clock)
  (up : bool) (w : World) (u : string) :
  slot_readable w u = true ->
  slot_readable (snd (fst (App.handleSaveRecording st c up w))) u = true.
Proof.
  intros H. unfold App.handleSaveRecording.
  destruct (App.user st) as [usr |]; [| exact H].
  destruct (App.currentAudioData st) as [audio |]; [| exact H].
  destruct (truthy_json (App.currentAnalysis st) && truthy_string audio);
    [| exact H].
  destruct up; [exact H |].
  destruct (slot_readable w (user_id usr)) eqn:Hslot.
  - rewrite (save_local_readable _ _ _ Hslot). cbn [fst snd].
    now apply slot_readable_setItem.
  - now rewrite (save_local_unreadable _ _ _ Hslot).
Qed.

Lemma step_sound (s : system) (o : op) : sound s -> sound (step s o).
Proof.
  intros [Hw Hh].
  destruct o as [a l | a b | audio analysis | c b | j b]; cbn [step].
  - split; assumption.
  - split; [exact Hw |]. cbn [history].
    unfold History.onAuthStateChanged.
    destruct a as [shown |]; [| exact Hh].
    destruct b.
    + rewrite loadRecordings_remote.
      pose proof (db_list_length (user_id shown) (table (world s))). lia.
    + rewrite loadRecordings_local. apply Hw.
  - split; assumption.
  - pose proof (fun u => handleSaveRecording_readable (app s) c b (world s) u
                           (proj1 (Hw u))) as Hr.
    pose proof (handleSaveRecording_local_list (app s) c b (world s)) as Hl.
    destruct (App.handleSaveRecording (app s) c b (world s)) as [[st' w'] lg].
    cbn [fst snd] in *. split; [| exact Hh].
    intros u. cbn [world]. split; [apply Hr |].
    destruct (Hl u) as [-> | (r & _ & ->)]; [apply Hw |].
    rewrite length_firstn. lia.
  - cbn [History.deleteRecording]. split.
    + intros u. cbn [world].
      assert (Hd : slot_readable (History.delete_local (history s) j (world s)) u
                   = true
                   /\ (List.length
                         (local_list
                            (History.delete_local (history s) j (world s)) u)
                       <= 50)%nat).
      { unfold History.delete_local.
        destruct (History.user (history s)) as [shown |]; [| apply Hw].
        split; [apply slot_readable_setItem, Hw |].
        destruct (decide (user_id shown = u)) as [<- | Hne].
        - rewrite local_list_setItem.
          pose proof (without_length j (History.recordings (history s))). lia.
        - rewrite local_list_setItem_other by exact Hne. apply Hw. }
      destruct (History.usingLocalStorage (history s)); cbn [negb];
        [exact Hd |].
      destruct b; [apply Hw | exact Hd].
    + cbn [history History.recordings].
      pose proof (without_length j (History.recordings (history s))). lia.
Qed.

Lemma initial_sound : sound initial.
Proof.
  split; [| simpl; lia]. intros u. split; [reflexivity |].
  unfold local_list, initial. cbn [world localStorage].
  rewrite lookup_empty. simpl. lia.
Qed.

(** Whatever happens to the application from its first state, every
    local slot stays readable and within 50 entries. *)
Lemma reachable_sound (ops : list op) : sound (run ops initial).
Proof.
  unfold run. generalize initial_sound. generalize initial.
  induction ops as [| o ops IH]; intros s Hs; [exact Hs |].
  simpl. apply IH. now apply step_sound.
Qed.

End StoreProperties.

(** ** The recorder driven through its buttons *)

Section RecorderRuns.
Import Js Recorder Trace RecorderUi.

Lemma ui_step_coherent (st : state) (i : input) :
  coherent st = true ->
  coherent (fst (ui_step st i)) = true
  /\ forallb (fun e => negb (is_level_event e)) (snd (ui_step st i)) = true.
Proof.
  destruct st as [rec ana mr chunks frame analyser mic].
  unfold coherent, ui_step, record_disabled, stop_disabled, startRecording,
    stopRecording, onstop, ondataavailable, analyze_and_report, analyzeAudio,
    monitorAudioLevel.
  cbn [isRecording isAnalyzing mediaRecorderRef audioChunksRef
       animationFrameRef analyserRef microphone].
  destruct frame as [h |]; [now rewrite andb_false_r |].
  destruct rec, ana, mr as [[|] |], mic; cbn; try discriminate; intros _;
    destruct i as [[[] | err] handle | last [url | err] [text | err'] | data];
    cbn; try (split; reflexivity);
    destruct (JSON_parse text); cbn; split; reflexivity.
Qed.

Lemma ui_run_app (xs ys : list input) (st : state) :
  ui_run (xs ++ ys) st
  = let '(st1, evs1) := ui_run xs st in
    let '(st2, evs2) := ui_run ys st1 in
    (st2, evs1 ++ evs2).
Proof.
  revert st. induction xs as [| x xs IH]; intros st.
  - simpl. now destruct (ui_run ys st).
  - simpl. destruct (ui_step st x) as [st1 evs1]. rewrite IH.
    destruct (ui_run xs st1) as [st2 evs2].
    destruct (ui_run ys st2) as [st3 evs3]. now rewrite app_assoc.
Qed.

Lemma ui_run_coherent (ins : list input) (st : state) :
  coherent st = true ->
  coherent (fst (ui_run ins st)) = true
  /\ forallb (fun e => negb (is_level_event e)) (snd (ui_run ins st)) = true.
Proof.
  revert st. induction ins as [| i ins IH]; intros st H; [now split |].
  simpl. destruct (ui_step_coherent st i H) as [H1 H2].
  destruct (ui_step st i) as [st1 evs1]. cbn [fst snd] in *.
  destruct (IH st1 H1) as [H3 H4].
  destruct (ui_run ins st1) as [st2 evs2]. cbn [fst snd] in *.
  split; [exact H3 |]. now rewrite forallb_app, H2, H4.
Qed.

(** X2. Started through the record button, the level monitor never runs:
    [updateLevel] sees the [isRecording] of the render the click came
    from, which is false, so no level is sampled and no animation frame is
    requested, kept or cancelled. *)
Theorem level_monitor_never_runs (ins : list input) :
  let '(st, evs) := ui_run ins initial in
  forallb (fun e => negb (is_level_event e)) evs = true
  /\ animationFrameRef st = None.
Proof.
  destruct (ui_run_coherent ins initial eq_refl) as [H1 H2].
  destruct (ui_run ins initial) as [st evs]. cbn [fst snd] in *.
  split; [exact H2 |].
  unfold coherent in H1. apply andb_prop in H1 as [_ H1].
  now destruct (animationFrameRef st).
Qed.

Lemma ui_step_stuck (st : state) (i : input) :
  isAnalyzing st = true ->
  mediaRecorderRef st <> Some Recording ->
  ui_step st i = (st, []).
Proof.
  intros Ha Hr. unfold ui_step, record_disabled, stop_disabled.
  rewrite Ha, !orb_true_r.
  destruct i; try reflexivity.
  destruct (mediaRecorderRef st) as [[|] |]; congruence.
Qed.

Lemma ui_run_stuck (ins : list input) (st : state) :
  isAnalyzing st = true ->
  mediaRecorderRef st <> Some Recording ->
  ui_run ins st = (st, []).
Proof.
  intros Ha Hr. induction ins as [| i ins IH]; [reflexivity |].
  simpl. now rewrite (ui_step_stuck st i Ha Hr), IH.
Qed.

(** X3. When the file reader fails on a stop, the handler ends before
    the analysis: the callback is not called, the microphone stays live,
    [isAnalyzing] stays set, so both buttons are disabled and every later
    click is ignored. *)
Theorem reader_failure_blocks_recorder (st : state) (last : blob)
  (err : string) (reply : answer string) (ins : list input) :
  coherent st = true ->
  stop_disabled st = false ->
  let '(st1, evs) := ui_step st (ClickStop last (Rejected err) reply) in
  callbacks evs = []
  /\ occurrences is_release evs = 0%nat
  /\ microphone st1 = true
  /\ record_disabled st1 = true /\ stop_disabled st1 = true
  /\ title st1 = "Analyzing..."
  /\ ui_run ins st1 = (st1, []).
Proof.
  intros Hc Hs.
  destruct st as [rec ana mr chunks frame analyser mic].
  unfold coherent, stop_disabled in Hc, Hs.
  cbn [isRecording isAnalyzing mediaRecorderRef animationFrameRef
       microphone] in Hc, Hs.
  destruct rec, ana; try discriminate Hs.
  destruct mr as [[|] |], frame, mic; try discriminate Hc.
  cbn. repeat split. now apply ui_run_stuck.
Qed.

Lemma reader_failure_blocks_recorder_witness :
  coherent Sample.recording_state = true
  /\ stop_disabled Sample.recording_state = false
  /\ let '(st1, evs) :=
       ui_step Sample.recording_state
         (ClickStop [Byte.x49] (Rejected "NotReadableError")
            (Resolved "{}")) in
     callbacks evs = []
     /\ occurrences is_release evs = 0%nat
     /\ microphone st1 = true
     /\ record_disabled st1 = true /\ stop_disabled st1 = true
     /\ title st1 = "Analyzing..."
     /\ ui_run [ClickRecord (Resolved tt) 1%N] st1 = (st1, []).
Proof.
  split; [reflexivity |]. split; [reflexivity |].
  exact (reader_failure_blocks_recorder Sample.recording_state [Byte.x49]
           "NotReadableError" (Resolved "{}") [ClickRecord (Resolved tt) 1%N]
           eq_refl eq_refl).
Defined.

Lemma ui_run_data (chunks : list blob) (st : state) :
  mediaRecorderRef st = Some Recording ->
  ui_run (map DataAvailable chunks) st
  = ({| isRecording := isRecording st; isAnalyzing := isAnalyzing st;
        mediaRecorderRef := mediaRecorderRef st;
        audioChunksRef := audioChunksRef st ++ chunks;
        animationFrameRef := animationFrameRef st;
        analyserRef := analyserRef st; microphone := microphone st |}, []).
Proof.
  revert st. induction chunks as [| c chunks IH]; intros st Hr.
  - simpl. rewrite app_nil_r. now destruct st.
  - simpl. rewrite Hr. rewrite IH by exact Hr.
    unfold ondataavailable. cbn. rewrite Hr. now rewrite <- app_assoc.
Qed.

(** X4. A recording started and stopped through the buttons encodes
    exactly the chunks delivered since the start, in order, whatever the
    component held from an earlier recording. *)
Theorem blob_holds_chunks_since_start (st : state) (handle : N)
  (chunks : list blob) (last : blob) (reader reply : answer string) :
  record_disabled st = false ->
  let '(_, evs) :=
    ui_run (ClickRecord (Resolved tt) handle
              :: map DataAvailable chunks ++ [ClickStop last reader reply])
           st in
  blobs evs = [concat (chunks ++ [last])]
  /\ occurrences is_encoding evs = 1%nat.
Proof.
  intros Hd. cbn [ui_run ui_step]. rewrite Hd.
  unfold record_disabled in Hd. apply orb_false_iff in Hd as [Hrec Hana].
  unfold startRecording, monitorAudioLevel. rewrite Hrec.
  rewrite ui_run_app, ui_run_data by reflexivity.
  cbn [ui_run ui_step stop_disabled isRecording isAnalyzing mediaRecorderRef
       audioChunksRef animationFrameRef analyserRef microphone].
  rewrite Hana.
  unfold stopRecording, onstop, ondataavailable, analyze_and_report,
    analyzeAudio.
  cbn [isRecording isAnalyzing mediaRecorderRef audioChunksRef
       animationFrameRef analyserRef microphone negb orb].
  destruct (animationFrameRef st) as [h |]; [destruct (h =? 0)%N eqn:Hh |];
    (destruct reader as [url | err];
     [destruct reply as [text | err']; [destruct (JSON_parse text) |] |]);
    cbn [cancel_frame]; try rewrite Hh; cbn; split; reflexivity.
Qed.

Lemma blob_holds_chunks_since_start_witness :
  record_disabled Recorder.initial = false
  /\ let '(_, evs) :=
       ui_run (ClickRecord (Resolved tt) 7%N
                 :: map DataAvailable [[Byte.x52]; [Byte.x49]]
                      ++ [ClickStop [Byte.x46]
                            (Resolved "data:audio/wav;base64,UklG")
                            (Rejected "network")])
              Recorder.initial in
     blobs evs = [concat ([[Byte.x52]; [Byte.x49]] ++ [[Byte.x46]])]
     /\ occurrences is_encoding evs = 1%nat.
Proof.
  split; [reflexivity |].
  exact (blob_holds_chunks_since_start Recorder.initial 7%N
           [[Byte.x52]; [Byte.x49]] [Byte.x46]
           (Resolved "data:audio/wav;base64,UklG") (Rejected "network")
           eq_refl).
Defined.

(** X5. The stop handler (both variants) calls the callback exactly once
    when the file reader answers, with the part of the data URL after
    its first comma and with the parsed reply, the fixed record or
    [null]; it does not call it when the reader fails. *)
Theorem stop_reports_once (st : state) (dataUrl err : string)
  (reply : answer string) :
  let '(_, evs, _) := onstop st (Resolved dataUrl) reply in
  let '(_, evs', _) := onstop_earlier st (Resolved dataUrl) reply in
  let '(_, none, out) := onstop st (Rejected err) reply in
  let '(_, none', out') := onstop_earlier st (Rejected err) reply in
  callbacks evs = [(base64Data dataUrl, reported reply)]
  /\ callbacks evs' = [(base64Data dataUrl, reported reply)]
  /\ callbacks none = [] /\ callbacks none' = []
  /\ out = Throws err /\ out' = Throws err.
Proof.
  unfold onstop, onstop_earlier, analyze_and_report, analyzeAudio, reported.
  rewrite !callbacks_app, !callbacks_cancel_frame.
  destruct reply as [text | err']; [destruct (JSON_parse text) |];
    repeat split; reflexivity.
Qed.

(** X6. The two variants of the component differ only in how they update
    their flags: on a stop of a running recording they do the same to the
    recorder, the file reader, the classifier, the console, the callback
    and the microphone, in the same order, and end alike. *)
Theorem variants_differ_in_flags_only (st : state) (last : blob)
  (reader reply : answer string) :
  mediaRecorderRef st = Some Recording ->
  isRecording st = true ->
  let '(st1, evs1, out1) := stopRecording st last reader reply in
  let '(st2, evs2, out2) := stopRecording_earlier st last reader reply in
  effects evs1 = effects evs2
  /\ out1 = out2
  /\ microphone st1 = microphone st2
  /\ audioChunksRef st1 = audioChunksRef st2
  /\ isRecording st1 = false /\ isRecording st2 = false.
Proof.
  intros Hr Hi.
  unfold stopRecording, stopRecording_earlier, onstop, onstop_earlier,
    ondataavailable, analyze_and_report, analyzeAudio.
  rewrite Hr, Hi.
  cbn [isRecording isAnalyzing mediaRecorderRef audioChunksRef
       animationFrameRef analyserRef microphone].
  destruct (animationFrameRef st) as [h |]; [destruct (h =? 0)%N eqn:Hh |];
    (destruct reader as [url | err];
     [destruct reply as [text | err']; [destruct (JSON_parse text) |] |]);
    cbn [cancel_frame]; try rewrite Hh; cbn; repeat split; reflexivity.
Qed.

Lemma variants_differ_in_flags_only_witness :
  mediaRecorderRef Sample.recording_state = Some Recording
  /\ isRecording Sample.recording_state = true
  /\ let '(st1, evs1, out1) :=
       stopRecording Sample.recording_state [Byte.x49]
         (Resolved "data:audio/wav;base64,Ukk=") (Resolved "hungry") in
     let '(st2, evs2, out2) :=
       stopRecording_earlier Sample.recording_state [Byte.x49]
         (Resolved "data:audio/wav;base64,Ukk=") (Resolved "hungry") in
     effects evs1 = effects evs2
     /\ out1 = out2
     /\ microphone st1 = microphone st2
     /\ audioChunksRef st1 = audioChunksRef st2
     /\ isRecording st1 = false /\ isRecording st2 = false.
Proof.
  split; [reflexivity |]. split; [reflexivity |].
  exact (variants_differ_in_flags_only Sample.recording_state [Byte.x49]
           (Resolved "data:audio/wav;base64,Ukk=") (Resolved "hungry")
           eq_refl eq_refl).
Defined.

End RecorderRuns.

(** ** Starts that throw after the stream was acquired *)

Section RecorderSetupRuns.
Import Js Recorder Trace RecorderUi RecorderSetup.

Lemma startRecording_throws_coherent (st : state) (at_stage : stage)
  (err : string) :
  coherent st = true ->
  record_disabled st = false ->
  coherent (fst (startRecording_throws st at_stage err)) = true.
Proof.
  destruct st as [rec ana mr chunks frame analyser mic].
  unfold coherent, record_disabled.
  cbn [isRecording isAnalyzing mediaRecorderRef animationFrameRef microphone].
  intros Hc Hd. apply orb_false_iff in Hd as [-> ->].
  destruct at_stage; cbn; try exact Hc.
  destruct mr as [[|] |], frame, mic; try discriminate Hc; reflexivity.
Qed.

Lemma step_coherent (t : tracked) (i : input) :
  coherent (component t) = true ->
  coherent (component (fst (step t i))) = true
  /\ abandoned (fst (step t i)) = (abandoned t + thrown [i] t)%nat.
Proof.
  intros Hc. destruct i as [p | at_stage err]; cbn [step thrown].
  - destruct (ui_step_coherent (component t) p Hc) as [H _].
    destruct (ui_step (component t) p) as [st evs]. cbn [fst component abandoned] in *.
    split; [exact H | lia].
  - destruct (record_disabled (component t)) eqn:Hd; cbn [fst].
    + split; [exact Hc | lia].
    + pose proof (startRecording_throws_coherent _ at_stage err Hc Hd) as H.
      destruct (startRecording_throws (component t) at_stage err) as [st evs].
      cbn [fst component abandoned] in *. split; [exact H | lia].
Qed.

Lemma run_coherent (ins : list input) (t : tracked) :
  coherent (component t) = true ->
  coherent (component (fst (run ins t))) = true
  /\ abandoned (fst (run ins t)) = (abandoned t + thrown ins t)%nat.
Proof.
  revert t. induction ins as [| i ins IH]; intros t Hc.
  - simpl. split; [exact Hc | lia].
  - destruct (step_coherent t i Hc) as [H1 H2].
    cbn [thrown] in *. cbn [run].
    destruct (step t i) as [t1 evs1] eqn:E. cbn [fst] in *.
    destruct (IH t1 H1) as [H3 H4].
    destruct (run ins t1) as [t2 evs2]. cbn [fst] in *.
    split; [exact H3 |]. rewrite H4, H2. lia.
Qed.

(** X1. With the clicks handled one at a time, from the first state of
    the component, whatever the platform answers and wherever a start
    throws: while [isRecording] the recorder runs and its stream is live;
    otherwise the recorder does not run and, unless [isAnalyzing] is set,
    its stream is released. The streams still live then are those of the
    starts that threw after the acquisition, one for each: the [catch] of
    [startRecording] stops no track. *)
Theorem buttons_keep_recorder_coherent (ins : list input) :
  let t := fst (run ins first_state) in
  (isRecording (component t) = true ->
   mediaRecorderRef (component t) = Some Recording
   /\ microphone (component t) = true
   /\ isAnalyzing (component t) = false)
  /\ (isRecording (component t) = false ->
      mediaRecorderRef (component t) <> Some Recording
      /\ (isAnalyzing (component t) = false ->
          microphone (component t) = false
          /\ live_streams t = thrown ins first_state))
  /\ abandoned t = thrown ins first_state.
Proof.
  intros t. destruct (run_coherent ins first_state eq_refl) as [H Ha].
  fold t in H, Ha. cbn [first_state abandoned] in Ha. simpl in Ha.
  unfold live_streams. rewrite Ha.
  unfold coherent in H. apply andb_prop in H as [H _].
  destruct (isRecording (component t)),
    (mediaRecorderRef (component t)) as [[|] |],
    (microphone (component t)), (isAnalyzing (component t));
    try discriminate H; repeat split; intros; try congruence; try lia.
Qed.

Lemma buttons_keep_recorder_coherent_witness :
  let ins :=
    [RecordThrows AtStart "NotSupportedError";
     Plain (ClickRecord (Resolved tt) 1%N);
     Plain (ClickStop [Byte.x52] (Resolved "data:audio/wav;base64,Ug==")
              (Rejected "network"))] in
  let t := fst (run ins first_state) in
  isRecording (component t) = false
  /\ isAnalyzing (component t) = false
  /\ thrown ins first_state = 1%nat
  /\ mediaRecorderRef (component t) <> Some Recording
  /\ microphone (component t) = false
  /\ live_streams t = thrown ins first_state.
Proof.
  intros ins t.
  assert (Hr : isRecording (component t) = false) by reflexivity.
  assert (Ha : isAnalyzing (component t) = false) by reflexivity.
  split; [exact Hr |]. split; [exact Ha |]. split; [reflexivity |].
  destruct (buttons_keep_recorder_coherent ins) as (_ & H & _).
  destruct (H Hr) as [H1 H2]. split; [exact H1 |]. exact (H2 Ha).
Defined.

End RecorderSetupRuns.

(** ** Texts, the result card and the player *)

Section DisplayProperties.
Import Js Recorder Trace RecorderUi Text TranslationResult.

Lemma split_without (c : ascii) (s : string) :
  has_char c s = false -> split c s = [s].
Proof.
  induction s as [| a r IH]; [reflexivity |].
  unfold has_char. simpl. intros H. apply orb_false_iff in H as [Ha Hr].
  rewrite Ascii.eqb_sym, Ha. unfold has_char in IH. now rewrite (IH Hr).
Qed.

Lemma split_at_first (c : ascii) (p r : string) :
  has_char c p = false -> split c (p +:+ String c r) = p :: split c r.
Proof.
  induction p as [| a p IH].
  - intros _. simpl. now rewrite Ascii.eqb_refl.
  - unfold has_char. simpl. intros H. apply orb_false_iff in H as [Ha Hp].
    rewrite Ascii.eqb_sym, Ha. unfold has_char in IH. now rewrite (IH Hp).
Qed.

Lemma base64Data_playAudio (a : string) :
  base64Data (HistoryView.playAudio a) = hd_error (split ","%char a).
Proof.
  unfold base64Data, HistoryView.playAudio.
  change ("data:audio/wav;base64," +:+ a)
    with ("data:audio/wav;base64" +:+ String ","%char a).
  rewrite split_at_first by reflexivity. reflexivity.
Qed.

(** X7. The address [playAudio] builds from stored audio is the data URL
    the recorder takes that audio from: for audio without a comma (as
    base64 is), the stop handler given that address hands exactly the
    stored audio to the callback. *)
Theorem played_address_yields_stored_audio (st : state) (a : string)
  (reply : answer string) :
  has_char ","%char a = false ->
  base64Data (HistoryView.playAudio a) = Some a
  /\ let '(_, evs, _) := onstop st (Resolved (HistoryView.playAudio a)) reply in
     callbacks evs = [(Some a, reported reply)].
Proof.
  intros H.
  assert (Hb : base64Data (HistoryView.playAudio a) = Some a)
    by now rewrite base64Data_playAudio, (split_without _ _ H).
  split; [exact Hb |].
  unfold onstop, analyze_and_report, analyzeAudio, reported.
  rewrite !callbacks_app, callbacks_cancel_frame, Hb.
  destruct reply as [text | err]; [destruct (JSON_parse text) |]; reflexivity.
Qed.

Lemma played_address_yields_stored_audio_witness :
  has_char ","%char "UklGRg==" = false
  /\ base64Data (HistoryView.playAudio "UklGRg==") = Some "UklGRg=="
  /\ let '(_, evs, _) :=
       onstop Sample.recording_state
         (Resolved (HistoryView.playAudio "UklGRg==")) (Rejected "network") in
     callbacks evs = [(Some "UklGRg==", reported (Rejected "network"))].
Proof.
  split; [reflexivity |].
  exact (played_address_yields_stored_audio Sample.recording_state "UklGRg=="
           (Rejected "network") eq_refl).
Defined.

(** The helpers of the two components, by category. *)

Ltac by_cases_on_label :=
  repeat match goal with
         | |- context [String.eqb ?a ?b] =>
             destruct (String.eqb a b); cbn [orb]; try reflexivity
         end.

Lemma getCryTypeIcon_category (type : string) :
  getCryTypeIcon type = Icon (category_icon (categorize type)) "w-5 h-5".
Proof. unfold getCryTypeIcon, categorize. cbv zeta. by_cases_on_label. Qed.

Lemma getCryTypeColor_category (type : string) :
  getCryTypeColor type = category_color (categorize type).
Proof. unfold getCryTypeColor, categorize. cbv zeta. by_cases_on_label. Qed.

Lemma history_getCryTypeIcon_category (type : string) :
  HistoryView.getCryTypeIcon type
  = Icon (category_icon (categorize type)) "w-4 h-4".
Proof.
  unfold HistoryView.getCryTypeIcon, categorize. cbv zeta. by_cases_on_label.
Qed.

Lemma history_getCryTypeColor_category (type : string) :
  HistoryView.getCryTypeColor type = category_color (categorize type).
Proof.
  unfold HistoryView.getCryTypeColor, categorize. cbv zeta. by_cases_on_label.
Qed.

Lemma category_icon_color (c d : category) :
  category_icon c = category_icon d <-> category_color c = category_color d.
Proof. destruct c, d; split; intros H; try reflexivity; discriminate H. Qed.

(** X8. The icon and the colour of a cry type never disagree: two types
    get the same icon exactly when they get the same colour, in the
    result card and in the history list alike, and the history list
    shows every type with the icon and the colour of the result card. *)
Theorem icon_and_color_agree (t1 t2 : string) :
  (icon_of (getCryTypeIcon t1) = icon_of (getCryTypeIcon t2)
   <-> getCryTypeColor t1 = getCryTypeColor t2)
  /\ (icon_of (HistoryView.getCryTypeIcon t1)
      = icon_of (HistoryView.getCryTypeIcon t2)
      <-> HistoryView.getCryTypeColor t1 = HistoryView.getCryTypeColor t2)
  /\ icon_of (HistoryView.getCryTypeIcon t1) = icon_of (getCryTypeIcon t1)
  /\ HistoryView.getCryTypeColor t1 = getCryTypeColor t1.
Proof.
  rewrite !history_getCryTypeIcon_category, !history_getCryTypeColor_category,
    ?getCryTypeIcon_category, ?getCryTypeColor_category.
  cbn [icon_of].
  repeat split; try apply category_icon_color; reflexivity.
Qed.

Lemma lower_upper_char (c : ascii) : lower_char (upper_char c) = lower_char c.
Proof.
  destruct c as [b0 b1 b2 b3 b4 b5 b6 b7].
  destruct b0, b1, b2, b3, b4, b5, b6, b7; reflexivity.
Qed.

Lemma toLowerCase_toUpperCase (s : string) :
  toLowerCase (toUpperCase s) = toLowerCase s.
Proof.
  induction s as [| c r IH]; [reflexivity |].
  simpl. now rewrite lower_upper_char, IH.
Qed.

Lemma lower_lower_char (c : ascii) : lower_char (lower_char c) = lower_char c.
Proof.
  destruct c as [b0 b1 b2 b3 b4 b5 b6 b7].
  destruct b0, b1, b2, b3, b4, b5, b6, b7; reflexivity.
Qed.

Lemma toLowerCase_idempotent (s : string) :
  toLowerCase (toLowerCase s) = toLowerCase s.
Proof.
  induction s as [| c r IH]; [reflexivity |].
  simpl. now rewrite lower_lower_char, IH.
Qed.

(** X9. For a type and an urgency written in ASCII, the case of the
    letters does not matter to what is shown: icon, colours and tips are
    those of the text in upper case and of the text in lower case. *)
Theorem display_ignores_case (type urgency : string) :
  ascii_only type = true ->
  ascii_only urgency = true ->
  getCryTypeIcon (toUpperCase type) = getCryTypeIcon type
  /\ getCryTypeIcon (toLowerCase type) = getCryTypeIcon type
  /\ getCryTypeColor (toUpperCase type) = getCryTypeColor type
  /\ HistoryView.getCryTypeIcon (toUpperCase type)
     = HistoryView.getCryTypeIcon type
  /\ HistoryView.getCryTypeColor (toUpperCase type)
     = HistoryView.getCryTypeColor type
  /\ getUrgencyColor (toUpperCase urgency) = getUrgencyColor urgency
  /\ getUrgencyColor (toLowerCase urgency) = getUrgencyColor urgency
  /\ quick_tips (toUpperCase type) = quick_tips type.
Proof.
  intros _ _.
  unfold getCryTypeIcon, getCryTypeColor, HistoryView.getCryTypeIcon,
    HistoryView.getCryTypeColor, getUrgencyColor, quick_tips.
  rewrite !toLowerCase_toUpperCase, !toLowerCase_idempotent.
  repeat split; reflexivity.
Qed.

Lemma display_ignores_case_witness :
  ascii_only "Hunger" = true
  /\ ascii_only "High" = true
  /\ getCryTypeIcon (toUpperCase "Hunger") = getCryTypeIcon "Hunger"
  /\ getCryTypeIcon (toLowerCase "Hunger") = getCryTypeIcon "Hunger"
  /\ getCryTypeColor (toUpperCase "Hunger") = getCryTypeColor "Hunger"
  /\ HistoryView.getCryTypeIcon (toUpperCase "Hunger")
     = HistoryView.getCryTypeIcon "Hunger"
  /\ HistoryView.getCryTypeColor (toUpperCase "Hunger")
     = HistoryView.getCryTypeColor "Hunger"
  /\ getUrgencyColor (toUpperCase "High") = getUrgencyColor "High"
  /\ getUrgencyColor (toLowerCase "High") = getUrgencyColor "High"
  /\ quick_tips (toUpperCase "Hunger") = quick_tips "Hunger".
Proof.
  split; [reflexivity |]. split; [reflexivity |].
  exact (display_ignores_case "Hunger" "High" eq_refl eq_refl).
Defined.

(** X10. The card shows exactly one group of quick tips: the four tests
    of the component exclude each other and leave no type out. *)
Theorem one_group_of_tips (type : string) :
  exists group, quick_tips type = [group]
  /\ (group = GeneralTips
      <-> includes ["hunger"; "sleepy"; "pain"] (toLowerCase type) = false).
Proof.
  unfold quick_tips, includes. cbn [existsb].
  destruct (String.eqb_spec (toLowerCase type) "hunger") as [E | _].
  - rewrite E. exists HungerTips. split; [reflexivity |]. split; discriminate.
  - destruct (String.eqb_spec (toLowerCase type) "sleepy") as [E | _].
    + rewrite E. exists SleepyTips. split; [reflexivity |].
      split; discriminate.
    + destruct (String.eqb_spec (toLowerCase type) "pain") as [E | _].
      * exists PainTips. split; [reflexivity |]. split; discriminate.
      * exists GeneralTips. split; [reflexivity |]. split; reflexivity.
Qed.

End DisplayProperties.

(** ** From the reply to the screen and to the stores *)

Section CardProperties.
Import Js Recorder Trace RecorderUi Text TranslationResult Store System.

Lemma reported_unparsable (text : string) :
  JSON_parse text = None ->
  reported (Resolved text) = fallback_analysis text.
Proof. intros H. unfold reported. now rewrite H. Qed.

Lemma reported_parsed (text : string) (v : json) :
  JSON_parse text = Some v -> reported (Resolved text) = v.
Proof. intros H. unfold reported. now rewrite H. Qed.

(** X11. A reply that is not JSON is shown as a complete card: the
    default icon and colour, the label General, the medium-urgency dot,
    confidence 75, the fixed action, the general tips, and the raw reply
    as the analysis text; Save is offered when there is audio. *)
Theorem unparsable_reply_card (text : string) (audio : option string) :
  JSON_parse text = None ->
  render (reported (Resolved text)) audio
  = Returns
      (Result
         {| header_icon := Icon Baby "w-5 h-5";
            save_button :=
              match audio with
              | Some a => truthy_string a
              | None => false
              end;
            badge_class :=
              "bg-gray-100 text-gray-800 border-gray-200 font-medium";
            badge_label := "General";
            urgency_dot := "w-3 h-3 rounded-full bg-yellow-500";
            urgency_text := "medium";
            confidence_text := Some (of_Z 75);
            action_text :=
              Some (JStr "Check if baby needs feeding, changing, or comfort");
            explanation_text := Some (JStr text);
            tips_shown := [GeneralTips] |}).
Proof. intros H. now rewrite (reported_unparsable _ H). Qed.

Lemma unparsable_reply_card_witness :
  JSON_parse "The baby sounds hungry" = None
  /\ render (reported (Resolved "The baby sounds hungry")) (Some "UklGRg==")
     = Returns
         (Result
            {| header_icon := Icon Baby "w-5 h-5";
               save_button := truthy_string "UklGRg==";
               badge_class :=
                 "bg-gray-100 text-gray-800 border-gray-200 font-medium";
               badge_label := "General";
               urgency_dot := "w-3 h-3 rounded-full bg-yellow-500";
               urgency_text := "medium";
               confidence_text := Some (of_Z 75);
               action_text :=
                 Some (JStr "Check if baby needs feeding, changing, or comfort");
               explanation_text := Some (JStr "The baby sounds hungry");
               tips_shown := [GeneralTips] |}).
Proof.
  split; [vm_compute; reflexivity |].
  apply (unparsable_reply_card "The baby sounds hungry" (Some "UklGRg==")).
  vm_compute; reflexivity.
Defined.

Lemma render_needs_type (v : json) (audio : option string) :
  truthy_json v = true ->
  (forall s : string, get v "type" <> Some (JStr s)) ->
  render v audio = Throws "TypeError".
Proof.
  intros Ht Hs. unfold render. rewrite Ht. cbn [negb].
  destruct (get v "type") as [[| b | n | s | items | ms] |];
    try reflexivity;
    [ destruct (get v "urgency") as [[] |]; reflexivity .. | ].
  now destruct (Hs s).
Qed.

(** X12. A reply that is JSON but carries no text under [type] (an
    object without that key, a number, a list) reaches the card as it
    is, and rendering the card throws: the main screen of a signed-in
    user fails with it. *)
Theorem reply_without_type_throws (text : string) (v : json)
  (audio : option string) (st : App.state) (u : User) :
  JSON_parse text = Some v ->
  truthy_json v = true ->
  (forall s : string, get v "type" <> Some (JStr s)) ->
  App.user st = Some u ->
  App.loading st = false ->
  render (reported (Resolved text)) audio = Throws "TypeError"
  /\ AppView.render
       (App.handleRecordingComplete st audio (reported (Resolved text)))
     = AppView.MainScreen (Some (Throws "TypeError")).
Proof.
  intros Hp Ht Hs Hu Hl. rewrite (reported_parsed _ _ Hp).
  split; [now apply render_needs_type |].
  unfold AppView.render.
  cbn [App.handleRecordingComplete App.loading App.user App.isAnalyzing
       App.currentAnalysis App.currentAudioData].
  rewrite Hl, Hu, Ht. cbn [orb]. now rewrite render_needs_type.
Qed.

Lemma reply_without_type_throws_witness :
  JSON_parse (Json.quoted "{'urgency':'high','confidence':90}")
  = Some (JObj [("urgency", JStr "high"); ("confidence", of_Z 90)])
  /\ truthy_json (JObj [("urgency", JStr "high"); ("confidence", of_Z 90)])
     = true
  /\ App.user Sample.signed_in = Some Sample.alice
  /\ App.loading Sample.signed_in = false
  /\ render
       (reported (Resolved (Json.quoted "{'urgency':'high','confidence':90}")))
       (Some "UklGRg==")
     = Throws "TypeError"
  /\ AppView.render
       (App.handleRecordingComplete Sample.signed_in (Some "UklGRg==")
          (reported
             (Resolved (Json.quoted "{'urgency':'high','confidence':90}"))))
     = AppView.MainScreen (Some (Throws "TypeError")).
Proof.
  do 4 (split; [vm_compute; reflexivity |]).
  apply (reply_without_type_throws
           (Json.quoted "{'urgency':'high','confidence':90}")
           (JObj [("urgency", JStr "high"); ("confidence", of_Z 90)])
           (Some "UklGRg==") Sample.signed_in Sample.alice);
    try (vm_compute; reflexivity).
  intros s H. vm_compute in H. discriminate H.
Defined.

Lemma offers_save_inv (st : App.state) :
  AppView.offers_save (AppView.render st) = true ->
  exists (u : User) (audio : string),
    App.user st = Some u
    /\ App.currentAudioData st = Some audio
    /\ truthy_json (App.currentAnalysis st) = true
    /\ truthy_string audio = true.
Proof.
  unfold AppView.offers_save, AppView.render, render.
  destruct (App.loading st); [discriminate |].
  destruct (App.user st) as [u |]; [| discriminate].
  destruct (App.isAnalyzing st || truthy_json (App.currentAnalysis st));
    [| discriminate].
  destruct (truthy_json (App.currentAnalysis st)); cbn [negb];
    [| discriminate].
  destruct (get (App.currentAnalysis st) "type") as [[| | | ty | |] |];
    try discriminate;
    destruct (get (App.currentAnalysis st) "urgency") as [[| | | ur | |] |];
    try discriminate.
  destruct (renderable_value _ && renderable_value _ && renderable_value _);
    [| discriminate].
  cbn [save_button].
  destruct (App.currentAudioData st) as [audio |]; [| discriminate].
  intros H. now exists u, audio.
Qed.

(** X13. The Save button is never dead: whenever the screen offers it,
    [handleSaveRecording] passes its guard; with the database up it adds
    exactly the recording built from what is shown and clears the card. *)
Theorem offered_save_saves (st : App.state) (c : App.clock) (w : World) :
  AppView.offers_save (AppView.render st) = true ->
  exists (u : User) (audio : string),
    App.user st = Some u
    /\ App.currentAudioData st = Some audio
    /\ App.handleSaveRecording st c true w
       = (App.clear st,
          {| table :=
               table w ++ [App.newRecording c u (App.currentAnalysis st) audio];
             localStorage := localStorage w |},
          [])
    /\ AppView.offers_save (AppView.render (App.clear st)) = false.
Proof.
  intros H. destruct (offers_save_inv st H) as (u & audio & Hu & Ha & Ht & Hs).
  exists u, audio. split; [exact Hu |]. split; [exact Ha |]. split.
  - unfold App.handleSaveRecording. now rewrite Hu, Ha, Ht, Hs.
  - unfold AppView.offers_save, AppView.render, App.clear.
    cbn [App.loading App.user App.isAnalyzing App.currentAnalysis
         App.currentAudioData truthy_json].
    destruct (App.loading st); [reflexivity |]. rewrite Hu.
    destruct (App.isAnalyzing st); reflexivity.
Qed.

Lemma offered_save_saves_witness :
  AppView.offers_save (AppView.render Sample.ready) = true
  /\ exists (u : User) (audio : string),
       App.user Sample.ready = Some u
       /\ App.currentAudioData Sample.ready = Some audio
       /\ App.handleSaveRecording Sample.ready (Sample.clock_at 3) true
            Sample.remote_world
          = (App.clear Sample.ready,
             {| table :=
                  table Sample.remote_world
                    ++ [App.newRecording (Sample.clock_at 3) u
                          (App.currentAnalysis Sample.ready) audio];
                localStorage := localStorage Sample.remote_world |},
             [])
       /\ AppView.offers_save (AppView.render (App.clear Sample.ready))
          = false.
Proof.
  split; [vm_compute; reflexivity |].
  apply (offered_save_saves Sample.ready (Sample.clock_at 3)
           Sample.remote_world).
  vm_compute; reflexivity.
Defined.

(** X14. After a classification that failed in transport nothing can be
    saved: the application holds a null analysis, shows no card and no
    Save button, and [handleSaveRecording] changes neither its state nor
    a store, whichever store is up. *)
Theorem failed_classification_is_not_saved (rst : state) (dataUrl err : string)
  (st : App.state) (c : App.clock) (up : bool) (w : World) :
  let '(_, evs, _) := onstop rst (Resolved dataUrl) (Rejected err) in
  let st' := AppView.receive st (callbacks evs) in
  App.currentAnalysis st' = JNull
  /\ AppView.offers_save (AppView.render st') = false
  /\ App.handleSaveRecording st' c up w = (st', w, []).
Proof.
  unfold onstop. rewrite analyze_and_report_rejected.
  rewrite !callbacks_app, callbacks_cancel_frame.
  cbn [callbacks List.app AppView.receive fold_left fst snd].
  repeat split.
  - unfold AppView.offers_save, AppView.render.
    cbn [App.handleRecordingComplete App.loading App.user App.isAnalyzing
         App.currentAnalysis truthy_json orb].
    destruct (App.loading st); [reflexivity |].
    destruct (App.user st); reflexivity.
  - unfold App.handleSaveRecording.
    cbn [App.handleRecordingComplete App.user App.currentAnalysis
         App.currentAudioData truthy_json andb].
    destruct (App.user st); [| reflexivity].
    destruct (base64Data dataUrl); reflexivity.
Qed.

End CardProperties.

(** ** More on saving and deleting *)

Section StoreEdges.
Import Js Text Store System.

(** X15. Once a save has run to its end without failing, the card is
    cleared: a further call of [handleSaveRecording] on the state it left
    changes neither the application nor a store and logs nothing,
    whichever store is up by then. (A press while the first save still
    awaits the database finds the card not yet cleared; that is not what
    this is about.) *)
Theorem second_save_does_nothing (st : App.state) (c1 c2 : App.clock)
  (up1 up2 : bool) (w : World) :
  up1 || match App.user st with
         | Some u => slot_readable w (user_id u)
         | None => true
         end = true ->
  let '(st1, w1, _) := App.handleSaveRecording st c1 up1 w in
  App.handleSaveRecording st1 c2 up2 w1 = (st1, w1, []).
Proof.
  intros H. unfold App.handleSaveRecording at 1.
  destruct (App.user st) as [u |] eqn:Hu;
    [| unfold App.handleSaveRecording; now rewrite Hu].
  destruct (App.currentAudioData st) as [audio |] eqn:Ha;
    [| unfold App.handleSaveRecording; now rewrite Hu, Ha].
  destruct (truthy_json (App.currentAnalysis st) && truthy_string audio)
    eqn:Hg; [| unfold App.handleSaveRecording; now rewrite Hu, Ha, Hg].
  destruct up1.
  - unfold App.handleSaveRecording, App.clear.
    cbn [App.user App.currentAudioData]. now rewrite Hu.
  - simpl in H. rewrite (save_local_readable _ _ _ H).
    unfold App.handleSaveRecording, App.clear.
    cbn [App.user App.currentAudioData]. now rewrite Hu.
Qed.

Lemma second_save_does_nothing_witness :
  false || match App.user Sample.ready with
           | Some u => slot_readable Sample.local_world (user_id u)
           | None => true
           end = true
  /\ let '(st1, w1, _) :=
       App.handleSaveRecording Sample.ready (Sample.clock_at 3) false
         Sample.local_world in
     App.handleSaveRecording st1 (Sample.clock_at 4) true w1 = (st1, w1, []).
Proof.
  split; [vm_compute; reflexivity |].
  exact (second_save_does_nothing Sample.ready (Sample.clock_at 3)
           (Sample.clock_at 4) false true Sample.local_world eq_refl).
Defined.

Lemma handleSaveRecording_cases (st : App.state) (c : App.clock) (up : bool)
  (w : World) :
  let w' := snd (fst (App.handleSaveRecording st c up w)) in
  w' = w
  \/ (exists u audio,
        App.user st = Some u /\ up = true
        /\ w' = {| table :=
                     table w
                       ++ [App.newRecording c u (App.currentAnalysis st) audio];
                   localStorage := localStorage w |})
  \/ (exists u rs,
        App.user st = Some u /\ up = false
        /\ (List.length rs <= 50)%nat
        /\ w' = setItem (user_id u) rs w).
Proof.
  unfold App.handleSaveRecording.
  destruct (App.user st) as [u |]; [| now left].
  destruct (App.currentAudioData st) as [audio |]; [| now left].
  destruct (truthy_json (App.currentAnalysis st) && truthy_string audio);
    [| now left].
  destruct up.
  - right. left. now exists u, audio.
  - destruct (slot_readable w (user_id u)) eqn:Hs.
    + rewrite (save_local_readable _ _ _ Hs). right. right.
      exists u, (firstn 50
                   (App.newRecording c u (App.currentAnalysis st) audio
                      :: local_list w (user_id u))).
      repeat split. rewrite length_firstn. lia.
    + rewrite (save_local_unreadable _ _ _ Hs). now left.
Qed.

(** X16. A save touches the data of the signed-in user only: the local
    list of every other user and the rows of every other user in the
    remote table are what they were. *)
Theorem save_leaves_other_users (st : App.state) (c : App.clock) (up : bool)
  (w : World) (other : string) :
  match App.user st with
  | Some u => user_id u <> other
  | None => True
  end ->
  let w' := snd (fst (App.handleSaveRecording st c up w)) in
  local_list w' other = local_list w other
  /\ localStorage w' !! key other = localStorage w !! key other
  /\ List.filter (owned_by other) (table w')
     = List.filter (owned_by other) (table w).
Proof.
  intros Hne w'.
  destruct (handleSaveRecording_cases st c up w)
    as [Hw | [(u & audio & Hu & _ & Hw) | (u & rs & Hu & _ & _ & Hw)]];
    fold w' in Hw; rewrite Hw; clear Hw.
  - repeat split.
  - rewrite Hu in Hne. repeat split. cbn [table].
    rewrite List.filter_app. cbn [List.filter]. unfold owned_by at 2.
    cbn [App.newRecording userId].
    destruct (String.eqb_spec (user_id u) other) as [E | _];
      [now destruct (Hne E) | apply app_nil_r].
  - rewrite Hu in Hne. split; [now apply local_list_setItem_other |].
    split; [| reflexivity]. unfold setItem. cbn [localStorage].
    apply lookup_insert_ne. intros E. apply Hne. now apply key_inj.
Qed.

Lemma save_leaves_other_users_witness :
  match App.user Sample.ready with
  | Some u => user_id u <> "user_2"
  | None => True
  end
  /\ let w' :=
       snd (fst (App.handleSaveRecording Sample.ready (Sample.clock_at 3)
                   false Sample.local_world)) in
     local_list w' "user_2" = local_list Sample.local_world "user_2"
     /\ localStorage w' !! key "user_2"
        = localStorage Sample.local_world !! key "user_2"
     /\ List.filter (owned_by "user_2") (table w')
        = List.filter (owned_by "user_2") (table Sample.local_world).
Proof.
  assert (H : match App.user Sample.ready with
              | Some u => user_id u <> "user_2"
              | None => True
              end) by (vm_compute; discriminate).
  split; [exact H |].
  exact (save_leaves_other_users Sample.ready (Sample.clock_at 3) false
           Sample.local_world "user_2" H).
Defined.

(** X17. A slot that does not hold a JSON array blocks the fallback: a
    save with the database down writes nothing, logs the failure and
    keeps the card, and the list read for the user is empty. A deletion
    in the history of that user writes the slot as an array again. *)
Theorem unreadable_slot_blocks_fallback (st : App.state) (c : App.clock)
  (w : World) (u : User) (audio i : string) (h : History.state) :
  App.user st = Some u ->
  App.currentAudioData st = Some audio ->
  truthy_json (App.currentAnalysis st) = true ->
  truthy_string audio = true ->
  slot_readable w (user_id u) = false ->
  History.user h = Some u ->
  App.handleSaveRecording st c false w
  = (st, w, [ConsoleLog "Database not available, using localStorage:";
             ConsoleError "Failed to save recording:"])
  /\ History.recordings (fst (History.loadRecordings h (user_id u) false w))
     = []
  /\ slot_readable (snd (History.deleteRecording h i false w)) (user_id u)
     = true.
Proof.
  intros Hu Ha Ht Hs Hslot Hh. repeat split.
  - unfold App.handleSaveRecording.
    now rewrite Hu, Ha, Ht, Hs, (save_local_unreadable _ _ _ Hslot).
  - rewrite loadRecordings_local. unfold local_list, slot_readable in *.
    destruct (localStorage w !! key (user_id u)) as [[| rs | |] |];
      try discriminate Hslot; reflexivity.
  - unfold History.deleteRecording. cbn [snd].
    assert (Hd : slot_readable (History.delete_local h i w) (user_id u) = true).
    { unfold History.delete_local. rewrite Hh.
      unfold slot_readable, setItem. cbn [localStorage].
      now rewrite lookup_insert_eq. }
    now destruct (History.usingLocalStorage h).
Qed.

Lemma unreadable_slot_blocks_fallback_witness :
  App.user Sample.ready = Some Sample.alice
  /\ App.currentAudioData Sample.ready = Some "UklGRg=="
  /\ truthy_json (App.currentAnalysis Sample.ready) = true
  /\ truthy_string "UklGRg==" = true
  /\ slot_readable Sample.broken_world (user_id Sample.alice) = false
  /\ History.user (Sample.shown false Sample.broken_world) = Some Sample.alice
  /\ App.handleSaveRecording Sample.ready (Sample.clock_at 3) false
       Sample.broken_world
     = (Sample.ready, Sample.broken_world,
        [ConsoleLog "Database not available, using localStorage:";
         ConsoleError "Failed to save recording:"])
  /\ History.recordings
       (fst (History.loadRecordings (Sample.shown false Sample.broken_world)
               (user_id Sample.alice) false Sample.broken_world))
     = []
  /\ slot_readable
       (snd (History.deleteRecording (Sample.shown false Sample.broken_world)
               "rec_1" false Sample.broken_world))
       (user_id Sample.alice)
     = true.
Proof.
  do 6 (split; [vm_compute; reflexivity |]).
  exact (unreadable_slot_blocks_fallback Sample.ready (Sample.clock_at 3)
           Sample.broken_world Sample.alice "UklGRg==" "rec_1"
           (Sample.shown false Sample.broken_world)
           eq_refl eq_refl eq_refl eq_refl eq_refl eq_refl).
Defined.

(** Identifiers. *)

Lemma pretty_N_char_plain (x : N) :
  Ascii.eqb "_"%char (pretty_N_char x) = false.
Proof. unfold pretty_N_char. repeat case_match; reflexivity. Qed.

Lemma pretty_N_go_plain (x : N) (s : string) :
  has_char "_"%char s = false -> has_char "_"%char (pretty_N_go x s) = false.
Proof.
  revert s. induction (N.lt_wf_0 x) as [x _ IH]; intros s Hs.
  assert (x = 0 \/ 0 < x)%N as [-> | Hpos] by lia.
  - now rewrite pretty_N_go_0.
  - rewrite pretty_N_go_step by exact Hpos. apply IH.
    + now apply N.div_lt.
    + unfold has_char in *. cbn [list_ascii_of_string existsb].
      now rewrite pretty_N_char_plain, Hs.
Qed.

Lemma pretty_Z_plain (z : Z) : has_char "_"%char (pretty z) = false.
Proof.
  destruct z as [| p | p]; [reflexivity | |];
    unfold pretty, pretty_Z, pretty, pretty_positive, pretty, pretty_N;
    cbn [decide]; (case_decide; [reflexivity |]).
  - now apply pretty_N_go_plain.
  - change (has_char "_" (String "-" (pretty_N_go (N.pos p) EmptyString))
            = false).
    unfold has_char. simpl. apply (pretty_N_go_plain (N.pos p) EmptyString).
    reflexivity.
Qed.

Lemma cut_at_first (c : ascii) (a b r1 r2 : string) :
  has_char c a = false -> has_char c b = false ->
  a +:+ String c r1 = b +:+ String c r2 -> a = b /\ r1 = r2.
Proof.
  revert b. induction a as [| x a IH]; intros [| y b] Ha Hb E; simpl in E.
  - now inversion E.
  - inversion E; subst. unfold has_char in Hb. simpl in Hb.
    now rewrite Ascii.eqb_refl in Hb.
  - inversion E; subst. unfold has_char in Ha. simpl in Ha.
    now rewrite Ascii.eqb_refl in Ha.
  - inversion E; subst.
    unfold has_char in Ha, Hb. simpl in Ha, Hb.
    apply orb_false_iff in Ha as [_ Ha]. apply orb_false_iff in Hb as [_ Hb].
    destruct (IH b Ha Hb H1) as [-> ->]. now split.
Qed.

(** X18. Two recordings get the same identifier only when they were
    built in the same millisecond with the same nine random characters:
    saves at different times never share an identifier. *)
Theorem identifiers_differ (c1 c2 : App.clock) :
  App.new_id c1 = App.new_id c2
  <-> App.now c1 = App.now c2
      /\ substring 2 9 (App.random36 c1) = substring 2 9 (App.random36 c2).
Proof.
  unfold App.new_id. split.
  - intros E. simpl in E. injection E as E.
    apply cut_at_first in E as [En Es]; try apply pretty_Z_plain.
    split; [now apply (inj pretty) | exact Es].
  - intros [-> ->]. reflexivity.
Qed.

(** Deleting. *)


Lemma without_without (i : string) (rs : list Recording) :
  without i (without i rs) = without i rs.
Proof.
  unfold without. induction rs as [| r rs IH]; [reflexivity |]. simpl.
  destruct (has_id i r) eqn:E; simpl; [exact IH |]. now rewrite E, IH.
Qed.





(** X20. Deleting the same identifier again, with the database in the
    same condition, changes nothing: not the list on screen, not the
    table, not the local storage. *)
Theorem delete_twice (st : History.state) (i : string) (up : bool)
  (w : World) :
  let '(st1, w1) := History.deleteRecording st i up w in
  History.deleteRecording st1 i up w1 = (st1, w1).
Proof.
  unfold History.deleteRecording.
  cbn [History.recordings History.loading History.user
       History.usingLocalStorage].
  rewrite without_without. f_equal.
  assert (Hl : forall w0,
             History.delete_local
               {| History.recordings := without i (History.recordings st);
                  History.loading := History.loading st;
                  History.user := History.user st;
                  History.usingLocalStorage := History.usingLocalStorage st |}
               i (History.delete_local st i w0)
             = History.delete_local st i w0).
  { intros w0. unfold History.delete_local. cbn [History.user History.recordings].
    destruct (History.user st) as [u |]; [| reflexivity].
    rewrite without_without. unfold setItem. cbn [table localStorage].
    now rewrite insert_insert_eq. }
  destruct (History.usingLocalStorage st); cbn [negb]; [apply Hl |].
  destruct up; [| apply Hl].
  cbn [table localStorage]. unfold db_delete. now rewrite without_without.
Qed.

(** Nothing moves between the stores. *)

Lemma In_without (i : string) (r : Recording) (rs : list Recording) :
  In r (without i rs) -> In r rs.
Proof. unfold without. intros H. now apply filter_In in H. Qed.

Lemma step_table_rows (s : system) (o : op) (r : Recording) :
  In r (table (world (step s o))) ->
  In r (table (world s))
  \/ exists c, o = Save c true /\ id r = App.new_id c.
Proof.
  destruct o as [a l | a b | audio analysis | c b | j b]; cbn [step world];
    try (now left).
  - pose proof (handleSaveRecording_cases (app s) c b (world s)) as Hc.
    destruct (App.handleSaveRecording (app s) c b (world s)) as [[st' w'] lg].
    cbn [fst snd world] in *.
    destruct Hc
      as [-> | [(u & audio & _ & -> & ->) | (u & rs & _ & _ & _ & ->)]];
      try (now left).
    cbn [table]. intros H. apply in_app_or in H as [H | [<- | []]];
      [now left |]. right. now exists c.
  - unfold History.deleteRecording. cbn [world].
    destruct (History.usingLocalStorage (history s)); cbn [negb];
      [rewrite delete_local_table; now left |].
    destruct b; [| rewrite delete_local_table; now left].
    cbn [table]. intros H. left. now apply In_without in H.
Qed.

(** X21. Nothing is ever moved from local storage to the remote table:
    after any operations from the first state, each row of the table was
    put there by a save that the database itself served. *)
Theorem table_rows_come_from_remote_saves (ops : list op) (r : Recording) :
  In r (table (world (run ops initial))) ->
  exists c, In (Save c true) ops /\ id r = App.new_id c.
Proof.
  assert (G : forall ops s,
             In r (table (world (run ops s))) ->
             In r (table (world s))
             \/ exists c, In (Save c true) ops /\ id r = App.new_id c).
  { clear ops. induction ops as [| o ops IH]; intros s H; [now left |].
    simpl in H. destruct (IH _ H) as [H1 | (c & Hin & Hid)].
    - destruct (step_table_rows s o r H1) as [H2 | (c & -> & Hid)];
        [now left |]. right. exists c. split; [now left | exact Hid].
    - right. exists c. split; [now right | exact Hid]. }
  intros H. destruct (G ops initial H) as [[] | Hc]. exact Hc.
Qed.

Lemma table_rows_come_from_remote_saves_witness :
  In (App.newRecording (Sample.clock_at 3) Sample.alice
        (Recorder.fallback_analysis "reply") "UklGRg==")
     (table (world (run Sample.one_remote_save initial)))
  /\ exists c, In (Save c true) Sample.one_remote_save
               /\ id (App.newRecording (Sample.clock_at 3) Sample.alice
                        (Recorder.fallback_analysis "reply") "UklGRg==")
                  = App.new_id c.
Proof.
  assert (H : In (App.newRecording (Sample.clock_at 3) Sample.alice
                    (Recorder.fallback_analysis "reply") "UklGRg==")
                 (table (world (run Sample.one_remote_save initial))))
    by (vm_compute; left; reflexivity).
  split; [exact H |].
  exact (table_rows_come_from_remote_saves Sample.one_remote_save _ H).
Defined.

Lemma step_slots_hold_arrays (s : system) (o : op) :
  holds_arrays s -> holds_arrays (step s o).
Proof.
  intros [Hw Hh].
  assert (Hset : forall u rs w,
             (List.length rs <= 50)%nat ->
             (forall k v, localStorage w !! k = Some v ->
                          exists l, v = JsonArray l
                                    /\ (List.length l <= 50)%nat) ->
             forall k v, localStorage (setItem u rs w) !! k = Some v ->
                         exists l, v = JsonArray l
                                   /\ (List.length l <= 50)%nat).
  { intros u rs w Hlen Hall k v. unfold setItem. cbn [localStorage].
    destruct (decide (key u = k)) as [<- | Hne].
    - rewrite lookup_insert_eq. intros [= <-]. now exists rs.
    - rewrite lookup_insert_ne by exact Hne. apply Hall. }
  destruct o as [a l | a b | audio analysis | c b | j b]; cbn [step].
  - split; assumption.
  - split; [exact Hw |]. cbn [history].
    unfold History.onAuthStateChanged.
    destruct a as [shown |]; [| exact Hh].
    destruct b.
    + rewrite loadRecordings_remote.
      pose proof (db_list_length (user_id shown) (table (world s))). lia.
    + rewrite loadRecordings_local. unfold local_list.
      destruct (localStorage (world s) !! key (user_id shown))
        as [v |] eqn:E; [| simpl; lia].
      destruct (Hw _ _ E) as (l & -> & Hl). exact Hl.
  - split; assumption.
  - pose proof (handleSaveRecording_cases (app s) c b (world s)) as Hc.
    destruct (App.handleSaveRecording (app s) c b (world s)) as [[st' w'] lg].
    cbn [fst snd] in *. split; [| exact Hh]. cbn [world].
    destruct Hc
      as [-> | [(u & audio & _ & _ & ->) | (u & rs & _ & _ & Hlen & ->)]];
      [exact Hw | exact Hw | now apply Hset].
  - cbn [History.deleteRecording]. split.
    + cbn [world].
      assert (Hd : forall k v,
                 localStorage (History.delete_local (history s) j (world s))
                   !! k = Some v ->
                 exists l, v = JsonArray l /\ (List.length l <= 50)%nat).
      { unfold History.delete_local.
        destruct (History.user (history s)) as [shown |]; [| exact Hw].
        apply Hset; [| exact Hw].
        pose proof (without_length j (History.recordings (history s))). lia. }
      destruct (History.usingLocalStorage (history s)); cbn [negb];
        [exact Hd |].
      destruct b; [exact Hw | exact Hd].
    + cbn [history History.recordings].
      pose proof (without_length j (History.recordings (history s))). lia.
Qed.

(** X22. Whatever happens to the application from its first state, every
    slot of the local storage holds an array of at most 50 recordings,
    and the history component shows at most 50: the fallback never leaves
    a slot that it cannot read back. *)
Theorem reachable_slots_hold_arrays (ops : list op) (k : string) (v : text) :
  localStorage (world (run ops initial)) !! k = Some v ->
  (exists rs, v = JsonArray rs /\ (List.length rs <= 50)%nat)
  /\ (List.length (History.recordings (history (run ops initial))) <= 50)%nat.
Proof.
  assert (G : forall ops s, holds_arrays s -> holds_arrays (run ops s)).
  { clear. induction ops as [| o ops IH]; intros s Hs; [exact Hs |].
    simpl. apply IH. now apply step_slots_hold_arrays. }
  assert (H0 : holds_arrays initial).
  { split; [| simpl; lia]. intros k0 v0. unfold initial.
    cbn [world localStorage]. now rewrite lookup_empty. }
  destruct (G ops initial H0) as [Hw Hh].
  intros E. split; [now apply (Hw k) | exact Hh].
Qed.

Lemma reachable_slots_hold_arrays_witness :
  localStorage (world (run Sample.one_local_save initial)) !! key "user_1"
  = Some (JsonArray [Sample.recording_at 3])
  /\ (exists rs, JsonArray [Sample.recording_at 3] = JsonArray rs
                 /\ (List.length rs <= 50)%nat)
  /\ (List.length
        (History.recordings (history (run Sample.one_local_save initial)))
      <= 50)%nat.
Proof.
  assert (H : localStorage (world (run Sample.one_local_save initial))
                !! key "user_1"
              = Some (JsonArray [Sample.recording_at 3]))
    by (vm_compute; reflexivity).
  split; [exact H |].
  exact (reachable_slots_hold_arrays Sample.one_local_save (key "user_1")
           (JsonArray [Sample.recording_at 3]) H).
Defined.

End StoreEdges.
